(** * esn-cloud-cmd-ms: command relay and response correlator

    A shallow embedding of [app/api/utils.py] and [app/api/routes.py].

    The service keeps one process-wide Redis client.  The two helpers of
    [utils.py] write and consume JSON documents under a command uuid, and the
    routes of [routes.py] either forward a command to a gateway over HTTP or
    store / retrieve command responses through those helpers.

    Redis, [json], [http], [httpx] and the pydantic schemas are not part of
    the sources: Redis is modelled by its three commands on a finite map, and
    the development is parametric in the JSON codec, the status phrases, the
    schemas and the gateway. *)

From Stdlib Require Import Ascii String.
From stdpp Require Import gmap strings list fin_maps pretty.

Local Open Scope string_scope.
Local Open Scope Z_scope.
Local Open Scope list_scope.

(** ** Python values that travel as JSON *)

(** The value of [json.loads], of [model_dump()] and of [Response.json()].
    Python's [None] is [JNull]. *)
#[warnings="-register-all"]
Inductive json : Type :=
| JNull
| JBool (b : bool)
| JNum (z : Z)
| JStr (s : string)
| JList (l : list json)
| JDict (d : gmap string json).

(** ** Exceptions and outcomes *)

Inductive exn : Type :=
| JSONDecodeError                                  (* json.loads / Response.json() *)
| TypeError                                        (* unpacking or iterating what is no mapping *)
| AttributeError                                   (* [.get] on a value that is no dict *)
| ValidationError                                  (* a pydantic constructor refused its fields *)
| TransportError                                   (* httpx could not reach the gateway in time *)
| ValueError                                       (* a status that http.HTTPStatus does not have *)
| HTTPException (status_code : Z) (detail : json). (* a fastapi.HTTPException, once built *)

Inductive outcome (A : Type) : Type :=
| Return (a : A)
| Raise (e : exn).
Arguments Return {A} a.
Arguments Raise {A} e.

Definition outcome_bind {A B} (o : outcome A) (f : A → outcome B) : outcome B :=
  match o with
  | Return a => f a
  | Raise e => Raise e
  end.

Definition outcome_map {A B} (f : A → B) (o : outcome A) : outcome B :=
  outcome_bind o (λ a, Return (f a)).

#[global] Instance outcome_mret : MRet outcome := @Return.
#[global] Instance outcome_mbind : MBind outcome := λ A B f o, outcome_bind o f.

Definition of_option {A} (e : exn) (o : option A) : outcome A :=
  match o with
  | Some a => Return a
  | None => Raise e
  end.

(** ** The Redis server *)

(** A key holds a byte string and, when one was set, the time it has left to
    live.  [redis_set] is [SET key value [EX seconds]]: without [EX] the key
    is persistent, and whatever expiry an older value had is dropped. *)
Record entry : Type := Entry { entry_value : string; entry_ttl : option N }.

Abbreviation redis := (gmap string entry).

Definition redis_set (name value : string) (ex : option N) (db : redis) : redis :=
  <[name := Entry value ex]> db.

Definition redis_get (name : string) (db : redis) : option string :=
  entry_value <$> db !! name.

Definition redis_delete (name : string) (db : redis) : redis :=
  delete name db.

(** What [d] seconds do to one key and to the whole keyspace: only a key
    with an expiry can go away on its own. *)
Definition age_entry (d : N) (e : entry) : option entry :=
  match entry_ttl e with
  | None => Some e
  | Some t => if (t <=? d)%N then None else Some (Entry (entry_value e) (Some (t - d)%N))
  end.

Definition elapse (d : N) (db : redis) : redis := omap (age_entry d) db.

(** ** Code that talks to the shared client

    The module-level [redis_client] is one connection for the whole process:
    every handler reads and writes the same keyspace, and what a handler wrote
    before it raised stays written. *)
Definition io (A : Type) : Type := redis → redis * outcome A.

Definition io_ret {A} (a : A) : io A := λ db, (db, Return a).
Definition io_bind {A B} (m : io A) (f : A → io B) : io B :=
  λ db, match m db with
        | (db', Return a) => f a db'
        | (db', Raise e) => (db', Raise e)
        end.
Definition io_lift {A} (o : outcome A) : io A := λ db, (db, o).

#[global] Instance io_mret : MRet io := @io_ret.
#[global] Instance io_mbind : MBind io := λ A B f m, io_bind m f.

Definition client_set (name value : string) : io unit :=
  λ db, (redis_set name value None db, Return ()).
Definition client_get (name : string) : io (option string) :=
  λ db, (db, Return (redis_get name db)).
Definition client_delete (name : string) : io unit :=
  λ db, (redis_delete name db, Return ()).

(** [if response:] on the value of [redis_client.get]: [None] and the empty
    byte string are false. *)
Definition truthy (response : option string) : option string :=
  match response with
  | Some EmptyString => None
  | other => other
  end.

(** ** HTTP constants and messages *)

Definition HTTP_200_OK : Z := 200.
Definition HTTP_202_ACCEPTED : Z := 202.

Record http_response : Type := HttpResponse { status_code : Z; content : string }.

Record target : Type := Target { url : string }.

(** A validated command body: where it goes and what [model_dump()] gives. *)
Record command : Type := Command { cmd_target : target; cmd_model_dump : gmap string json }.

Definition message (text : string) : gmap string json := {[ "message" := JStr text ]}.

Definition message_with_uuids (text : string) (command_uuids : json) : gmap string json :=
  <["command_uuids" := command_uuids]> (message text).

(** The [.get] of a decoded body: a missing key gives [None]. *)
Definition dict_get (key : string) (j : json) : outcome json :=
  match j with
  | JDict d => Return (default JNull (d !! key))
  | _ => Raise AttributeError
  end.

(** [SomeSchema] applied to the unpacked [fields]: only a mapping unpacks. *)
Definition unpack_into {A} (init : gmap string json → option A) (fields : json) : outcome A :=
  match fields with
  | JDict kw => of_option ValidationError (init kw)
  | _ => Raise TypeError
  end.

Fixpoint characters (s : string) : list json :=
  match s with
  | EmptyString => []
  | String c rest => JStr (String c EmptyString) :: characters rest
  end.

(** What a [for] over a decoded body visits: the items of a list, the keys
    of a dict, the characters of a string; nothing else iterates. *)
Definition iterate (j : json) : outcome (list json) :=
  match j with
  | JList l => Return l
  | JDict d => Return (JStr <$> (map_to_list d).*1)
  | JStr s => Return (characters s)
  | _ => Raise TypeError
  end.

(** A comprehension: the first element that raises ends it. *)
Fixpoint comprehension {A B} (f : A → outcome B) (l : list A) : outcome (list B) :=
  match l with
  | [] => Return []
  | x :: rest => y ← f x; ys ← comprehension f rest; Return (y :: ys)
  end.

(** The three kinds of sensor command response, one schema each. *)
Inductive resp_kind : Type := SensorState | InferenceLayer | SensorConfig.

Section Service.

(** *** [json] *)
Variable json_dumps : json → string.
Variable json_loads : string → option json.

(** *** [http]: the phrase of [http.HTTPStatus(status)], for the statuses
    that it has. *)
Variable http_status_phrase : Z → option string.

(** *** [app.api.schemas] *)
Variable Resp : resp_kind → Type.
(* response.metadata.command_uuid *)
Variable resp_command_uuid : ∀ k, Resp k → string.
(* response.model_dump() *)
Variable resp_model_dump : ∀ k, Resp k → gmap string json.
(* the schema applied to the unpacked fields; a refusal is a ValidationError *)
Variable resp_init : ∀ k, gmap string json → option (Resp k).
Variable BLEDevice : Type.
Variable BLEDevice_init : gmap string json → option BLEDevice.

(** *** The gateways, as seen through [httpx]: the address and the JSON
    body of a POST give either a response or no response in time. *)
Variable gateway : string → gmap string json → option http_response.

(** **** [fastapi.HTTPException(status_code=..., detail=...)]

    The constructor keeps the detail it is given, except [None]: it puts the
    phrase of the status in its place, and looking that phrase up fails for a
    status that [http.HTTPStatus] does not have. *)
Definition http_exception (status_code : Z) (detail : json) : exn :=
  match detail with
  | JNull =>
      match http_status_phrase status_code with
      | Some phrase => HTTPException status_code (JStr phrase)
      | None => ValueError
      end
  | _ => HTTPException status_code detail
  end.

(** **** [utils.py] *)

Definition post_json (handler_url endpoint : string) (data : gmap string json)
  : outcome http_response :=
  of_option TransportError (gateway (handler_url +:+ endpoint) data).

Definition response_json (r : http_response) : outcome json :=
  of_option JSONDecodeError (json_loads (content r)).

Definition store_response_in_redis (command_uuid : string) (response : gmap string json)
  : io unit :=
  client_set command_uuid (json_dumps (JDict response)).

Definition retrieve_response_from_redis (command_uuid : string) : io json :=
  response ← client_get command_uuid;
  match truthy response with
  | Some bytes =>
      client_delete command_uuid;;
      io_lift (of_option JSONDecodeError (json_loads bytes))
  | None => mret JNull
  end.

(** A record that survives the trip through the store: its text is not
    empty, and reading the text gives the record back. *)
Definition round_trips (response : gmap string json) : Prop :=
  json_dumps (JDict response) ≠ EmptyString ∧
  json_loads (json_dumps (JDict response)) = Some (JDict response).

(** The records a store holds, as the callers of
    [retrieve_response_from_redis] can get them: the keys whose value is not
    empty and reads as a JSON object. *)
Definition decoded (e : entry) : option (gmap string json) :=
  match truthy (Some (entry_value e)) with
  | Some bytes =>
      match json_loads bytes with
      | Some (JDict r) => Some r
      | _ => None
      end
  | None => None
  end.

Definition records (db : redis) : gmap string (gmap string json) := omap decoded db.

(** **** [routes.py]: gateway and sensor commands *)

Definition get_available_sensors (command : command) : outcome (list BLEDevice) :=
  cmd_response ← post_json (url (cmd_target command))
                   "/gateway/command/get/available-sensors" (cmd_model_dump command);
  if decide (status_code cmd_response ≠ HTTP_200_OK) then
    detail ← response_json cmd_response;
    Raise (http_exception (status_code cmd_response) detail)
  else
    body ← response_json cmd_response;
    devices ← iterate body;
    comprehension (unpack_into BLEDevice_init) devices.

Definition get_provisioned_sensors (command : command) : outcome (list BLEDevice) :=
  cmd_response ← post_json (url (cmd_target command))
                   "/gateway/command/get/provisioned-sensors" (cmd_model_dump command);
  if decide (status_code cmd_response ≠ HTTP_200_OK) then
    detail ← response_json cmd_response;
    Raise (http_exception (status_code cmd_response) detail)
  else
    body ← response_json cmd_response;
    devices ← iterate body;
    comprehension (unpack_into BLEDevice_init) devices.

Definition add_provisioned_sensors (command : command) : outcome (gmap string json) :=
  cmd_response ← post_json (url (cmd_target command))
                   "/gateway/command/add/provisioned-sensors" (cmd_model_dump command);
  if decide (status_code cmd_response ≠ HTTP_200_OK) then
    detail ← response_json cmd_response;
    Raise (http_exception (status_code cmd_response) detail)
  else
    Return (message "ADD Provisioned Sensors Command Sent to Gateway API").

Definition add_registered_sensors (command : command) : outcome (gmap string json) :=
  cmd_response ← post_json (url (cmd_target command))
                   "/gateway/command/add/registered-sensors" (cmd_model_dump command);
  if decide (status_code cmd_response ≠ HTTP_200_OK) then
    detail ← response_json cmd_response;
    Raise (http_exception (status_code cmd_response) detail)
  else
    Return (message "ADD Registered Sensors Command Sent to Gateway API").

Definition set_gateway_model (command : command) : outcome (gmap string json) :=
  cmd_response ← post_json (url (cmd_target command))
                   "/gateway/command/set/gateway-model" (cmd_model_dump command);
  if decide (status_code cmd_response ≠ HTTP_202_ACCEPTED) then
    detail ← response_json cmd_response;
    Raise (http_exception (status_code cmd_response) detail)
  else
    Return (message "SET Gateway Model Command Sent to Gateway API").

Definition set_sensor_state (command : command) : outcome (gmap string json) :=
  cmd_response ← post_json (url (cmd_target command))
                   "/sensor/command/set/sensor-state" (cmd_model_dump command);
  if decide (status_code cmd_response ≠ HTTP_202_ACCEPTED) then
    detail ← response_json cmd_response;
    Raise (http_exception (status_code cmd_response) detail)
  else
    Return (message "SET Sensor State Command Sent to Gateway API").

Definition command_get_sensor_state (command : command) : outcome (gmap string json) :=
  cmd_response ← post_json (url (cmd_target command))
                   "/sensor/command/get/sensor-state" (cmd_model_dump command);
  if decide (status_code cmd_response ≠ HTTP_202_ACCEPTED) then
    detail ← response_json cmd_response;
    Raise (http_exception (status_code cmd_response) detail)
  else
    body ← response_json cmd_response;
    command_uuids ← dict_get "command_uuids" body;
    Return (message_with_uuids "GET Sensor State Command Sent to Gateway API" command_uuids).

Definition set_inference_layer (command : command) : outcome (gmap string json) :=
  cmd_response ← post_json (url (cmd_target command))
                   "/sensor/command/set/inference-layer" (cmd_model_dump command);
  if decide (status_code cmd_response ≠ HTTP_202_ACCEPTED) then
    detail ← response_json cmd_response;
    Raise (http_exception (status_code cmd_response) detail)
  else
    Return (message "SET Inference Layer Command Sent to Gateway API").

Definition command_get_inference_layer (command : command) : outcome (gmap string json) :=
  cmd_response ← post_json (url (cmd_target command))
                   "/sensor/command/get/inference-layer" (cmd_model_dump command);
  if decide (status_code cmd_response ≠ HTTP_202_ACCEPTED) then
    detail ← response_json cmd_response;
    Raise (http_exception (status_code cmd_response) detail)
  else
    body ← response_json cmd_response;
    command_uuids ← dict_get "command_uuids" body;
    Return (message_with_uuids "GET Inference Layer Command Sent to Gateway API" command_uuids).

Definition set_sensor_config (command : command) : outcome (gmap string json) :=
  cmd_response ← post_json (url (cmd_target command))
                   "/sensor/command/set/sensor-config" (cmd_model_dump command);
  if decide (status_code cmd_response ≠ HTTP_202_ACCEPTED) then
    detail ← response_json cmd_response;
    Raise (http_exception (status_code cmd_response) detail)
  else
    Return (message "SET Sensor Configuration Command Sent to Gateway API").

Definition command_get_sensor_config (command : command) : outcome (gmap string json) :=
  cmd_response ← post_json (url (cmd_target command))
                   "/sensor/command/get/sensor-config" (cmd_model_dump command);
  if decide (status_code cmd_response ≠ HTTP_202_ACCEPTED) then
    detail ← response_json cmd_response;
    Raise (http_exception (status_code cmd_response) detail)
  else
    body ← response_json cmd_response;
    command_uuids ← dict_get "command_uuids" body;
    Return (message_with_uuids "GET Sensor Configuration Command Sent to Gateway API"
              command_uuids).

Definition set_sensor_model (command : command) : outcome (gmap string json) :=
  cmd_response ← post_json (url (cmd_target command))
                   "/sensor/command/set/sensor-model" (cmd_model_dump command);
  if decide (status_code cmd_response ≠ HTTP_202_ACCEPTED) then
    detail ← response_json cmd_response;
    Raise (http_exception (status_code cmd_response) detail)
  else
    Return (message "SET Sensor Model Command Sent to Gateway API").

Definition set_inf_latency_bench (command : command) : outcome (gmap string json) :=
  cmd_response ← post_json (url (cmd_target command))
                   "/sensor/command/set/inf-latency-bench" (cmd_model_dump command);
  if decide (status_code cmd_response ≠ HTTP_202_ACCEPTED) then
    detail ← response_json cmd_response;
    Raise (http_exception (status_code cmd_response) detail)
  else
    Return (message "SET Inference Latency Benchmark Command Sent to Gateway API").

(** The router: the command routes by kind, with the path each one posts
    to on the gateway and the status it takes for success. *)
Inductive command_kind : Type :=
| GetAvailableSensors | GetProvisionedSensors | AddProvisionedSensors
| AddRegisteredSensors | SetGatewayModel
| SetSensorState | GetSensorState | SetInferenceLayer | GetInferenceLayer
| SetSensorConfig | GetSensorConfig | SetSensorModel | SetInfLatencyBench.

Definition command_path (c : command_kind) : string :=
  match c with
  | GetAvailableSensors => "/gateway/command/get/available-sensors"
  | GetProvisionedSensors => "/gateway/command/get/provisioned-sensors"
  | AddProvisionedSensors => "/gateway/command/add/provisioned-sensors"
  | AddRegisteredSensors => "/gateway/command/add/registered-sensors"
  | SetGatewayModel => "/gateway/command/set/gateway-model"
  | SetSensorState => "/sensor/command/set/sensor-state"
  | GetSensorState => "/sensor/command/get/sensor-state"
  | SetInferenceLayer => "/sensor/command/set/inference-layer"
  | GetInferenceLayer => "/sensor/command/get/inference-layer"
  | SetSensorConfig => "/sensor/command/set/sensor-config"
  | GetSensorConfig => "/sensor/command/get/sensor-config"
  | SetSensorModel => "/sensor/command/set/sensor-model"
  | SetInfLatencyBench => "/sensor/command/set/inf-latency-bench"
  end.

Definition expected_status (c : command_kind) : Z :=
  match c with
  | GetAvailableSensors | GetProvisionedSensors
  | AddProvisionedSensors | AddRegisteredSensors => HTTP_200_OK
  | _ => HTTP_202_ACCEPTED
  end.

(** The message of the routes that answer one. *)
Definition sent_message (c : command_kind) : option string :=
  match c with
  | GetAvailableSensors | GetProvisionedSensors => None
  | AddProvisionedSensors => Some "ADD Provisioned Sensors Command Sent to Gateway API"
  | AddRegisteredSensors => Some "ADD Registered Sensors Command Sent to Gateway API"
  | SetGatewayModel => Some "SET Gateway Model Command Sent to Gateway API"
  | SetSensorState => Some "SET Sensor State Command Sent to Gateway API"
  | GetSensorState => Some "GET Sensor State Command Sent to Gateway API"
  | SetInferenceLayer => Some "SET Inference Layer Command Sent to Gateway API"
  | GetInferenceLayer => Some "GET Inference Layer Command Sent to Gateway API"
  | SetSensorConfig => Some "SET Sensor Configuration Command Sent to Gateway API"
  | GetSensorConfig => Some "GET Sensor Configuration Command Sent to Gateway API"
  | SetSensorModel => Some "SET Sensor Model Command Sent to Gateway API"
  | SetInfLatencyBench => Some "SET Inference Latency Benchmark Command Sent to Gateway API"
  end.

Inductive reply : Type :=
| Devices (devices : list BLEDevice)
| Body (body : gmap string json).

Definition command_route (c : command_kind) (command : command) : outcome reply :=
  match c with
  | GetAvailableSensors => outcome_map Devices (get_available_sensors command)
  | GetProvisionedSensors => outcome_map Devices (get_provisioned_sensors command)
  | AddProvisionedSensors => outcome_map Body (add_provisioned_sensors command)
  | AddRegisteredSensors => outcome_map Body (add_registered_sensors command)
  | SetGatewayModel => outcome_map Body (set_gateway_model command)
  | SetSensorState => outcome_map Body (set_sensor_state command)
  | GetSensorState => outcome_map Body (command_get_sensor_state command)
  | SetInferenceLayer => outcome_map Body (set_inference_layer command)
  | GetInferenceLayer => outcome_map Body (command_get_inference_layer command)
  | SetSensorConfig => outcome_map Body (set_sensor_config command)
  | GetSensorConfig => outcome_map Body (command_get_sensor_config command)
  | SetSensorModel => outcome_map Body (set_sensor_model command)
  | SetInfLatencyBench => outcome_map Body (set_inf_latency_bench command)
  end.

(** The acknowledgement the gateway gives to a command of kind [c]. *)
Definition acknowledgement (c : command_kind) (command : command) : option http_response :=
  gateway (url (cmd_target command) +:+ command_path c) (cmd_model_dump command).

(** **** [routes.py]: sensor command responses *)

(** The body shared by the three store routes, which differ in the schema
    of [response] and in the text of the message. *)
Definition store_response (k : resp_kind) (text : string) (response : Resp k)
  : io (gmap string json) :=
  let command_uuid := resp_command_uuid k response in
  store_response_in_redis command_uuid (resp_model_dump k response);;
  mret (message text).

Definition store_get_sensor_state_response (response : Resp SensorState) :=
  store_response SensorState
    "GET Sensor State Command Response Stored in Cache Database" response.

Definition store_get_inference_layer_response (response : Resp InferenceLayer) :=
  store_response InferenceLayer
    "GET Inference Layer Command Response Stored in Cache Database" response.

Definition store_get_sensor_config_response (response : Resp SensorConfig) :=
  store_response SensorConfig
    "GET Sensor Configuration Command Response Stored in Cache Database" response.

(** The [for] loop shared by the three retrieve routes; [responses] is the
    list being appended to. *)
Fixpoint retrieve_loop (k : resp_kind) (command_uuids : list string)
    (responses : list (Resp k)) : io (list (Resp k)) :=
  match command_uuids with
  | [] => mret responses
  | command_uuid :: rest =>
      response ← retrieve_response_from_redis command_uuid;
      match response with
      | JNull => retrieve_loop k rest responses
      | _ =>
          item ← io_lift (unpack_into (resp_init k) response);
          retrieve_loop k rest (responses ++ [item])
      end
  end.

Definition retrieve_get_sensor_state_response (command_uuids : list string)
  : io (list (Resp SensorState)) :=
  retrieve_loop SensorState command_uuids [].

Definition retrieve_get_inference_layer_response (command_uuids : list string)
  : io (list (Resp InferenceLayer)) :=
  retrieve_loop InferenceLayer command_uuids [].

Definition retrieve_get_sensor_config_response (command_uuids : list string)
  : io (list (Resp SensorConfig)) :=
  retrieve_loop SensorConfig command_uuids [].

(** The retrieve route of each kind, as the router has them. *)
Definition retrieve_route (k : resp_kind) : list string → io (list (Resp k)) :=
  match k with
  | SensorState => retrieve_get_sensor_state_response
  | InferenceLayer => retrieve_get_inference_layer_response
  | SensorConfig => retrieve_get_sensor_config_response
  end.

(** The store route of each kind. *)
Definition store_route (k : resp_kind) : Resp k → io (gmap string json) :=
  match k with
  | SensorState => store_get_sensor_state_response
  | InferenceLayer => store_get_inference_layer_response
  | SensorConfig => store_get_sensor_config_response
  end.

(** [id] holds the record that the route of kind [k] gives back as [item]. *)
Definition holds (k : resp_kind) (db : redis) (id : string) (item : Resp k) : Prop :=
  ∃ bytes r, redis_get id db = Some bytes ∧ bytes ≠ EmptyString ∧
             json_loads bytes = Some (JDict r) ∧ resp_init k r = Some item.

(** The requested records are ones the route can give back: what is stored
    under a requested identifier reads as a JSON object that the schema of
    the route accepts. *)
Definition answerable (k : resp_kind) (ids : list string) (db : redis) : Prop :=
  ∀ id bytes, id ∈ ids → truthy (redis_get id db) = Some bytes →
    ∃ r item, json_loads bytes = Some (JDict r) ∧ resp_init k r = Some item.

(** **** Callers that share the store

    Redis runs one command at a time, and a handler in another worker
    process (or another replica of the service) can have its commands run
    between any two commands of this one.  A call of
    [retrieve_response_from_redis] is therefore cut at its Redis commands:
    the GET, then the DELETE followed by the local decoding. *)
Inductive consumer : Type :=
| BeforeGet
| BeforeDelete (bytes : string)
| Finished (result : outcome json).

Definition consumer_step (command_uuid : string) (c : consumer) (db : redis)
  : redis * consumer :=
  match c with
  | BeforeGet =>
      match truthy (redis_get command_uuid db) with
      | Some bytes => (db, BeforeDelete bytes)
      | None => (db, Finished (Return JNull))
      end
  | BeforeDelete bytes =>
      (redis_delete command_uuid db,
       Finished (of_option JSONDecodeError (json_loads bytes)))
  | Finished result => (db, Finished result)
  end.

Inductive caller : Type := FirstCaller | SecondCaller.

Record shared : Type := Shared { store_of : redis; first : consumer; second : consumer }.

Definition shared_step (command_uuid : string) (who : caller) (s : shared) : shared :=
  match who with
  | FirstCaller =>
      let '(db, c) := consumer_step command_uuid (first s) (store_of s) in
      Shared db c (second s)
  | SecondCaller =>
      let '(db, c) := consumer_step command_uuid (second s) (store_of s) in
      Shared db (first s) c
  end.

(** A schedule says whose command the server runs next. *)
Definition run_schedule (command_uuid : string) (schedule : list caller) (s : shared)
  : shared :=
  foldl (λ s who, shared_step command_uuid who s) s schedule.

Definition both_finished (s : shared) : Prop :=
  (∃ r, first s = Finished r) ∧ (∃ r, second s = Finished r).

(** Two callers after one record [r] that was stored under [id].  While the
    record is there nobody has finished; once it is gone, somebody has got
    it. *)
Definition racing (id : string) (r : gmap string json) (s : shared) : Prop :=
  let bytes := json_dumps (JDict r) in
  let got := Finished (Return (JDict r)) in
  let missed := Finished (Return JNull) in
  ((∃ ttl, store_of s !! id = Some (Entry bytes ttl)) ∧
   (first s = BeforeGet ∨ first s = BeforeDelete bytes) ∧
   (second s = BeforeGet ∨ second s = BeforeDelete bytes))
  ∨
  (store_of s !! id = None ∧
   (first s = BeforeGet ∨ first s = BeforeDelete bytes ∨ first s = got ∨ first s = missed) ∧
   (second s = BeforeGet ∨ second s = BeforeDelete bytes ∨ second s = got
    ∨ second s = missed) ∧
   (first s = got ∨ second s = got)).

(** After one caller is through, the other one can only miss. *)
Definition first_served (id : string) (r : gmap string json) (s : shared) : Prop :=
  store_of s !! id = None ∧ first s = Finished (Return (JDict r)) ∧
  (second s = BeforeGet ∨ second s = Finished (Return JNull)).

Definition second_served (id : string) (r : gmap string json) (s : shared) : Prop :=
  store_of s !! id = None ∧ second s = Finished (Return (JDict r)) ∧
  (first s = BeforeGet ∨ first s = Finished (Return JNull)).

(** The command routes by what they do with an accepted acknowledgement:
    eight answer a fixed message and never look at the body, three hand on
    the [command_uuids] of the body, two turn the body into devices. *)
Definition message_routes : list command_kind :=
  [AddProvisionedSensors; AddRegisteredSensors; SetGatewayModel; SetSensorState;
   SetInferenceLayer; SetSensorConfig; SetSensorModel; SetInfLatencyBench].

Definition uuid_routes : list command_kind :=
  [GetSensorState; GetInferenceLayer; GetSensorConfig].

Definition device_routes : list command_kind :=
  [GetAvailableSensors; GetProvisionedSensors].

(** [device] is a JSON object that [BLEDevice] accepts as [d]. *)
Definition device_of (device : json) (d : BLEDevice) : Prop :=
  ∃ fields, device = JDict fields ∧ BLEDevice_init fields = Some d.

End Service.

(** ** The operations of the response correlator, in the words of the
    specification

    [store(id, record)] inserts or overwrites; [consume(id)] reads and removes
    in one go, and answers nothing when there is no record; [consumeMany]
    consumes each identifier in turn and keeps what it found. *)
Module Correlator.
Abbreviation cache := (gmap string (gmap string json)).

Definition store (id : string) (record : gmap string json) (c : cache) : cache :=
  <[id := record]> c.

Definition consume (id : string) (c : cache) : cache * option (gmap string json) :=
  (delete id c, c !! id).

Fixpoint consumeMany (ids : list string) (c : cache) : cache * list (gmap string json) :=
  match ids with
  | [] => (c, [])
  | id :: rest =>
      let '(c1, found) := consume id c in
      let '(c2, others) := consumeMany rest c1 in
      (c2, match found with Some record => record :: others | None => others end)
  end.
End Correlator.

(** ** A sample instance of the parameters

    A printer and a reader for the JSON texts that [json.dumps] writes with
    its default separators (integers, and strings whose only escapes are the
    quote and the backslash), three small response schemas, and a gateway.
    The examples at the end of the development run the service on them. *)
Module Sample.
Definition dquote : ascii := "034"%char.
Definition backslash : ascii := "092"%char.

Fixpoint escape (s : string) : string :=
  match s with
  | EmptyString => EmptyString
  | String c rest =>
      if decide (c = dquote ∨ c = backslash) then String backslash (String c (escape rest))
      else String c (escape rest)
  end.

Definition quoted (s : string) : string :=
  String dquote (escape s +:+ String dquote EmptyString).

Definition join (parts : list string) : string :=
  match parts with
  | [] => EmptyString
  | p :: ps => p +:+ String.concat EmptyString ((λ q, ", " +:+ q) <$> ps)
  end.

Fixpoint dumps (j : json) : string :=
  match j with
  | JNull => "null"
  | JBool true => "true"
  | JBool false => "false"
  | JNum z => pretty z
  | JStr s => quoted s
  | JList l => "[" +:+ join (dumps <$> l) +:+ "]"
  | JDict d =>
      "{" +:+ join ((λ kv, quoted kv.1 +:+ ": " +:+ kv.2) <$> map_to_list (dumps <$> d))
          +:+ "}"
  end.

(** Reading back. *)
Fixpoint skip_ws (s : string) : string :=
  match s with
  | String " " rest => skip_ws rest
  | _ => s
  end.

Definition digit_of (c : ascii) : option Z :=
  let n := Z.of_nat (nat_of_ascii c) in
  if decide (48 ≤ n ≤ 57) then Some (n - 48) else None.

Fixpoint read_digits (acc : Z) (s : string) : Z * string :=
  match s with
  | String c rest =>
      match digit_of c with
      | Some d => read_digits (10 * acc + d) rest
      | None => (acc, s)
      end
  | EmptyString => (acc, s)
  end.

Definition read_number (s : string) : option (Z * string) :=
  match s with
  | String "-" (String c rest) =>
      if digit_of c is Some _
      then let '(n, r) := read_digits 0 (String c rest) in Some (- n, r)
      else None
  | String c _ =>
      if digit_of c is Some _ then Some (read_digits 0 s) else None
  | EmptyString => None
  end.

(** After the opening quote. *)
Fixpoint read_string (s : string) : option (string * string) :=
  match s with
  | EmptyString => None
  | String c rest =>
      if decide (c = dquote) then Some (EmptyString, rest)
      else if decide (c = backslash) then
        match rest with
        | String e rest' => '(t, r) ← read_string rest'; Some (String e t, r)
        | EmptyString => None
        end
      else '(t, r) ← read_string rest; Some (String c t, r)
  end.

Section Composite.
Variable read_value : string → option (json * string).

(** After the first item of an array or object: [n] bounds the items. *)
Fixpoint read_items (n : nat) (s : string) : option (list json * string) :=
  match n with
  | O => None
  | S n =>
      match skip_ws s with
      | String "]" rest => Some ([], rest)
      | String "," rest =>
          '(v, r) ← read_value rest; '(vs, r') ← read_items n r; Some (v :: vs, r')
      | _ => None
      end
  end.

Definition read_member (s : string) : option ((string * json) * string) :=
  match skip_ws s with
  | String c rest =>
      if decide (c = dquote) then
        '(k, r) ← read_string rest;
        match skip_ws r with
        | String ":" r' => '(v, r'') ← read_value r'; Some ((k, v), r'')
        | _ => None
        end
      else None
  | EmptyString => None
  end.

Fixpoint read_members (n : nat) (s : string) : option (list (string * json) * string) :=
  match n with
  | O => None
  | S n =>
      match skip_ws s with
      | String "}" rest => Some ([], rest)
      | String "," rest =>
          '(m, r) ← read_member rest; '(ms, r') ← read_members n r; Some (m :: ms, r')
      | _ => None
      end
  end.
End Composite.

Definition dict_of (members : list (string * json)) : gmap string json :=
  foldl (λ d kv, <[kv.1 := kv.2]> d) ∅ members.

Fixpoint read_value (fuel : nat) (s : string) : option (json * string) :=
  match fuel with
  | O => None
  | S fuel =>
      match skip_ws s with
      | String "n" (String "u" (String "l" (String "l" rest))) => Some (JNull, rest)
      | String "t" (String "r" (String "u" (String "e" rest))) => Some (JBool true, rest)
      | String "f" (String "a" (String "l" (String "s" (String "e" rest)))) =>
          Some (JBool false, rest)
      | String "[" rest =>
          match skip_ws rest with
          | String "]" rest' => Some (JList [], rest')
          | _ =>
              '(v, r) ← read_value fuel rest;
              '(vs, r') ← read_items (read_value fuel) (String.length r) r;
              Some (JList (v :: vs), r')
          end
      | String "{" rest =>
          match skip_ws rest with
          | String "}" rest' => Some (JDict ∅, rest')
          | _ =>
              '(m, r) ← read_member (read_value fuel) rest;
              '(ms, r') ← read_members (read_value fuel) (String.length r) r;
              Some (JDict (dict_of (m :: ms)), r')
          end
      | String c rest =>
          if decide (c = dquote) then '(t, r) ← read_string rest; Some (JStr t, r)
          else '(z, r) ← read_number (String c rest); Some (JNum z, r)
      | EmptyString => None
      end
  end.

Definition loads (s : string) : option json :=
  '(v, r) ← read_value (String.length s) s;
  match skip_ws r with
  | EmptyString => Some v
  | _ => None
  end.

(** Schemas: the metadata with the command uuid, and one field that is
    named after the kind. *)
Record response : Type := Response { command_uuid : string; resp_data : json }.

Definition data_field (k : resp_kind) : string :=
  match k with
  | SensorState => "sensor_state"
  | InferenceLayer => "inference_layer"
  | SensorConfig => "sensor_config"
  end.

Definition Resp (k : resp_kind) : Type := response.

Definition resp_command_uuid (k : resp_kind) (r : Resp k) : string := command_uuid r.

Definition resp_model_dump (k : resp_kind) (r : Resp k) : gmap string json :=
  <[data_field k := resp_data r]>
    {[ "metadata" := JDict {[ "command_uuid" := JStr (command_uuid r) ]} ]}.

Definition resp_init (k : resp_kind) (fields : gmap string json) : option (Resp k) :=
  match fields !! "metadata", fields !! data_field k with
  | Some (JDict metadata), Some data =>
      match metadata !! "command_uuid" with
      | Some (JStr uuid) => Some (Response uuid data)
      | _ => None
      end
  | _, _ => None
  end.

Record ble_device : Type := BleDevice { device_name : string; device_address : string }.

Definition BLEDevice_init (fields : gmap string json) : option ble_device :=
  match fields !! "device_name", fields !! "device_address" with
  | Some (JStr name), Some (JStr address) => Some (BleDevice name address)
  | _, _ => None
  end.

(** Three gateways: one accepts every command and announces the uuid
    [U1], one is busy and says so in JSON, one sits behind a proxy that
    answers with a page of its own; any other address is unreachable. *)
Definition accepted_body : string := dumps (JDict {[ "command_uuids" := JList [JStr "U1"] ]}).
Definition plain_body : string := dumps (JDict {[ "message" := JStr "accepted" ]}).
Definition busy_body : string := dumps (JDict {[ "detail" := JStr "gateway busy" ]}).
Definition proxy_body : string := "<html>Bad Gateway</html>".

Definition has_prefix (p s : string) : bool :=
  bool_decide (String.substring 0 (String.length p) s = p).

Definition gateway (address : string) (data : gmap string json) : option http_response :=
  if has_prefix "http://gw-ok" address then Some (HttpResponse 202 accepted_body)
  else if has_prefix "http://gw-plain" address then Some (HttpResponse 202 plain_body)
  else if has_prefix "http://gw-busy" address then Some (HttpResponse 503 busy_body)
  else if has_prefix "http://gw-proxy" address then Some (HttpResponse 502 proxy_body)
  else None.

Definition some_command (address : string) : command :=
  Command (Target address) {[ "sensor_name" := JStr "s1" ]}.

Definition state_U1 : Resp SensorState := Response "U1" (JStr "active").
Definition state_U2 : Resp SensorState := Response "U2" (JStr "inactive").
(** Stores that the store routes have filled. *)
Definition stored (k : resp_kind) (r : Resp k) (db : redis) : redis :=
  (store_route dumps Resp resp_command_uuid resp_model_dump k r db).1.

Definition db_states : redis :=
  stored SensorState state_U2 (stored SensorState state_U1 ∅).

Definition alternating : list caller :=
  [FirstCaller; SecondCaller; FirstCaller; SecondCaller].

Definition one_after_the_other : list caller :=
  [FirstCaller; FirstCaller; SecondCaller; SecondCaller].
(** Phrases of [http.HTTPStatus], for the statuses the examples meet. *)
Definition status_phrase (status : Z) : option string :=
  if decide (status = 200) then Some "OK"
  else if decide (status = 202) then Some "Accepted"
  else if decide (status = 400) then Some "Bad Request"
  else if decide (status = 404) then Some "Not Found"
  else if decide (status = 500) then Some "Internal Server Error"
  else if decide (status = 502) then Some "Bad Gateway"
  else if decide (status = 503) then Some "Service Unavailable"
  else if decide (status = 504) then Some "Gateway Timeout"
  else None.

(** A gateway that gives the same acknowledgement to every command. *)
Definition always (r : http_response) (address : string) (data : gmap string json)
  : option http_response := Some r.

Definition scan_body : string :=
  dumps (JList [JDict {[ "device_name" := JStr "s1"; "device_address" := JStr "aa:01" ]};
                JDict {[ "device_name" := JStr "s2"; "device_address" := JStr "aa:02" ]}]).

Definition layer_U1 : Resp InferenceLayer := Response "U1" (JNum 2).

(** Stores with a key that holds the empty byte string, and with one that
    holds the text of JSON's null. *)
Definition db_empty_value : redis := <["U5" := Entry EmptyString None]> db_states.
Definition db_null_value : redis := <["U6" := Entry "null" None]> db_states.
End Sample.

(** * Properties *)

Section Properties.

Variable json_dumps : json → string.
Variable json_loads : string → option json.
Variable http_status_phrase : Z → option string.
Variable Resp : resp_kind → Type.
Variable resp_command_uuid : ∀ k, Resp k → string.
Variable resp_model_dump : ∀ k, Resp k → gmap string json.
Variable resp_init : ∀ k, gmap string json → option (Resp k).
Variable BLEDevice : Type.
Variable BLEDevice_init : gmap string json → option BLEDevice.
Variable gateway : string → gmap string json → option http_response.

Local Abbreviation store := (store_response_in_redis json_dumps).
Local Abbreviation consume := (retrieve_response_from_redis json_loads).
Local Abbreviation storable := (round_trips json_dumps json_loads).

(** ** The two helpers of [utils.py] *)

Lemma truthy_Some o bytes : truthy o = Some bytes ↔ o = Some bytes ∧ bytes ≠ EmptyString.
Proof.
  destruct o as [[|c rest]|]; simpl; split;
    [done | intros [[= <-] ?]; done
    | intros [= <-]; done | intros [[= <-] _]; done
    | done | intros [? _]; done ].
Qed.

Lemma truthy_None o : truthy o = None ↔ o = None ∨ o = Some EmptyString.
Proof.
  destruct o as [[|c rest]|]; simpl; split; auto; intros [?|?]; congruence.
Qed.

Lemma store_run id r db :
  store id r db = (<[id := Entry (json_dumps (JDict r)) None]> db, Return ()).
Proof. reflexivity. Qed.

Lemma consume_present id bytes db :
  redis_get id db = Some bytes → bytes ≠ EmptyString →
  consume id db = (delete id db, of_option JSONDecodeError (json_loads bytes)).
Proof.
  intros Hget Hne.
  assert (Ht : truthy (redis_get id db) = Some bytes) by (apply truthy_Some; done).
  unfold retrieve_response_from_redis, mbind, io_mbind, io_bind, client_get; simpl.
  rewrite Ht. unfold client_delete, io_lift, redis_delete. simpl.
  destruct (json_loads bytes); reflexivity.
Qed.

Lemma consume_absent id db :
  truthy (redis_get id db) = None → consume id db = (db, Return JNull).
Proof.
  intros Ht.
  unfold retrieve_response_from_redis, mbind, io_mbind, io_bind, client_get; simpl.
  rewrite Ht. reflexivity.
Qed.

Lemma redis_get_insert id v ex (db : redis) :
  redis_get id (<[id := Entry v ex]> db) = Some v.
Proof. unfold redis_get. rewrite lookup_insert_eq. reflexivity. Qed.

Lemma redis_get_delete id (db : redis) : redis_get id (delete id db) = None.
Proof. unfold redis_get. rewrite lookup_delete_eq. reflexivity. Qed.

(** A call that returned a record took it out of the store. *)
Lemma consume_returns id db db' j :
  consume id db = (db', Return j) → j ≠ JNull →
  db' = delete id db ∧ ∃ bytes, redis_get id db = Some bytes ∧ bytes ≠ EmptyString
                                 ∧ json_loads bytes = Some j.
Proof.
  intros Hrun Hj.
  destruct (truthy (redis_get id db)) as [bytes|] eqn:Ht.
  - apply truthy_Some in Ht as [Hget Hne].
    rewrite (consume_present _ _ _ Hget Hne) in Hrun.
    destruct (json_loads bytes) as [j'|] eqn:Hl; simpl in Hrun; [|done].
    injection Hrun as <- <-. eauto.
  - rewrite (consume_absent _ _ Ht) in Hrun. injection Hrun as _ <-. done.
Qed.

(** What was just stored is what the next call consumes. *)
Lemma consume_stored id r db :
  storable r →
  let db1 := (store id r db).1 in
  consume id db1 = (delete id db1, Return (JDict r)) ∧
  consume id (delete id db1) = (delete id db1, Return JNull).
Proof.
  intros [Hne Hrt] db1. subst db1. rewrite store_run. simpl. split.
  - rewrite (consume_present id (json_dumps (JDict r))); [|apply redis_get_insert|done].
    rewrite Hrt. reflexivity.
  - apply consume_absent. rewrite redis_get_delete. reflexivity.
Qed.

(** C2. A [consume(id)] right after [store(id, r)] returns [r] and removes
    it; the next [consume(id)] returns nothing.  More generally, whenever a
    [consume] returned a record, the next one on the same identifier returns
    nothing: a stored record is read at most once. *)
Theorem consume_after_store (id : string) (r : gmap string json) (db : redis) :
  storable r →
  let db1 := (store id r db).1 in
  consume id db1 = (delete id db1, Return (JDict r)) ∧
  consume id (delete id db1) = (delete id db1, Return JNull) ∧
  (∀ db0 db' j, consume id db0 = (db', Return j) → j ≠ JNull →
                consume id db' = (db', Return JNull)).
Proof.
  intros Hr db1. destruct (consume_stored id r db Hr) as [Hfirst Hsecond].
  split_and!; [done..|].
  intros db0 db' j Hrun Hj.
    destruct (consume_returns _ _ _ _ Hrun Hj) as [-> _].
    apply consume_absent. rewrite redis_get_delete. reflexivity.
Qed.

(** C5. Two stores under one identifier before any consumption: the second
    silently replaces the first (the store is left as if only the second had
    happened, and neither call is refused), so only the second record can be
    retrieved. *)
Theorem store_twice_last_wins (id : string) (r1 r2 : gmap string json) (db : redis) :
  storable r2 →
  let db1 := (store id r1 db).1 in
  let db2 := (store id r2 db1).1 in
  (store id r1 db).2 = Return () ∧ (store id r2 db1).2 = Return () ∧
  db2 = (store id r2 db).1 ∧
  consume id db2 = (delete id db2, Return (JDict r2)) ∧
  consume id (delete id db2) = (delete id db2, Return JNull).
Proof.
  intros Hr2 db1 db2.
  destruct (consume_stored id r2 db1 Hr2) as [Hfirst Hsecond].
  split_and!; try done.
  subst db1 db2. rewrite !store_run. simpl. apply insert_insert_eq.
Qed.

(** C7. For distinct identifiers [a] and [b]: a store under [a] leaves the
    entry under [b] as it was, so that consuming [b] gives the same answer
    with or without that store; consuming [b] leaves the entry under [a] as
    it was, and its answer depends on nothing but the entry under [b]. *)
Theorem store_consume_frame (a b : string) (r : gmap string json) (db : redis) :
  a ≠ b →
  (store a r db).1 !! b = db !! b ∧
  (consume b (store a r db).1).2 = (consume b db).2 ∧
  (consume b db).1 !! a = db !! a ∧
  (∀ db1 db2 : redis, db1 !! b = db2 !! b → (consume b db1).2 = (consume b db2).2).
Proof.
  intros Hab.
  assert (Hdep : ∀ db1 db2 : redis, db1 !! b = db2 !! b →
                 (consume b db1).2 = (consume b db2).2).
  { intros db1 db2 Heq.
    assert (Hget : redis_get b db1 = redis_get b db2) by (unfold redis_get; by rewrite Heq).
    destruct (truthy (redis_get b db2)) as [bytes|] eqn:Ht.
    - pose proof Ht as Ht'. rewrite <- Hget in Ht'.
      apply truthy_Some in Ht as [? ?]. apply truthy_Some in Ht' as [? ?].
      by rewrite (consume_present b bytes db1), (consume_present b bytes db2).
    - pose proof Ht as Ht'. rewrite <- Hget in Ht'.
      by rewrite (consume_absent b db1), (consume_absent b db2). }
  assert (Hstore : (store a r db).1 !! b = db !! b).
  { rewrite store_run. simpl. by apply lookup_insert_ne. }
  split_and!; [done | by apply Hdep | | done].
  destruct (truthy (redis_get b db)) as [bytes|] eqn:Ht.
  - apply truthy_Some in Ht as [? ?].
    rewrite (consume_present b bytes db); [|done..]. simpl.
    apply lookup_delete_ne. congruence.
  - by rewrite (consume_absent b db).
Qed.

(** ** Expiry *)

Lemma elapse_persistent d (db : redis) id v :
  db !! id = Some (Entry v None) → elapse d db !! id = Some (Entry v None).
Proof. intros H. unfold elapse. rewrite lookup_omap, H. reflexivity. Qed.

(** C4, as the code has it.  A stored record is removed from the store by
    the retrieval that returns it.  The store itself sets no expiry: the key
    is written persistent, so a record that nobody retrieves is still there,
    and still retrievable, after any amount of time. *)
Theorem stored_record_has_no_expiry (id : string) (r : gmap string json) (db : redis) (d : N) :
  storable r →
  let db1 := (store id r db).1 in
  entry_ttl <$> db1 !! id = Some None ∧
  elapse d db1 !! id = db1 !! id ∧
  consume id (elapse d db1) = (delete id (elapse d db1), Return (JDict r)) ∧
  (consume id (elapse d db1)).1 !! id = None.
Proof.
  intros [Hne Hrt] db1. subst db1. rewrite store_run. simpl.
  set (v := json_dumps (JDict r)) in *.
  assert (Hnow : (<[id := Entry v None]> db : redis) !! id = Some (Entry v None))
    by apply lookup_insert_eq.
  pose proof (elapse_persistent d _ _ _ Hnow) as Hlater.
  assert (Hrun : consume id (elapse d (<[id := Entry v None]> db))
                 = (delete id (elapse d (<[id := Entry v None]> db)), Return (JDict r))).
  { rewrite (consume_present id v); [by rewrite Hrt | | done].
    unfold redis_get. by rewrite Hlater. }
  split_and!.
  - by rewrite Hnow.
  - by rewrite Hlater, Hnow.
  - done.
  - rewrite Hrun. simpl. apply lookup_delete_eq.
Qed.

(** ** The batched retrieval *)

Local Abbreviation loop := (retrieve_loop json_loads Resp resp_init).
Local Abbreviation held := (records json_loads).

(** One turn of the loop. *)
Lemma loop_cons k id rest acc db :
  loop k (id :: rest) acc db =
  match consume id db with
  | (db1, Return JNull) => loop k rest acc db1
  | (db1, Return j) =>
      match unpack_into (resp_init k) j with
      | Return item => loop k rest (acc ++ [item]) db1
      | Raise e => (db1, Raise e)
      end
  | (db1, Raise e) => (db1, Raise e)
  end.
Proof.
  simpl. unfold mbind at 1. unfold io_mbind, io_bind.
  destruct (consume id db) as [db1 [j|e]]; [|done].
  destruct j; try done;
    unfold mbind, io_mbind, io_bind, io_lift;
    match goal with |- context [unpack_into ?f ?j] => destruct (unpack_into f j) end; done.
Qed.

Lemma loop_skip k id rest acc db :
  truthy (redis_get id db) = None → loop k (id :: rest) acc db = loop k rest acc db.
Proof. intros Ht. by rewrite loop_cons, (consume_absent id db Ht). Qed.

Lemma loop_hit k id rest acc db bytes r item :
  redis_get id db = Some bytes → bytes ≠ EmptyString →
  json_loads bytes = Some (JDict r) → resp_init k r = Some item →
  loop k (id :: rest) acc db = loop k rest (acc ++ [item]) (delete id db).
Proof.
  intros Hget Hne Hl Hi.
  rewrite loop_cons, (consume_present id bytes db Hget Hne), Hl. simpl. by rewrite Hi.
Qed.

(** What was appended before the loop started stays in front. *)
Lemma loop_acc k ids acc db :
  loop k ids acc db = ((loop k ids [] db).1, outcome_map (app acc) (loop k ids [] db).2).
Proof.
  revert acc db. induction ids as [|id rest IH]; intros acc db.
  - simpl. unfold mret, io_mret, io_ret, outcome_map. simpl. by rewrite app_nil_r.
  - rewrite !loop_cons.
    destruct (consume id db) as [db1 [j|e]]; [|done].
    assert (Hitem : ∀ j', match unpack_into (resp_init k) j' with
              | Return item => loop k rest (acc ++ [item]) db1
              | Raise e => (db1, Raise e)
              end =
              ((match unpack_into (resp_init k) j' with
                | Return item => loop k rest ([] ++ [item]) db1
                | Raise e => (db1, Raise e)
                end).1,
               outcome_map (app acc)
                 (match unpack_into (resp_init k) j' with
                  | Return item => loop k rest ([] ++ [item]) db1
                  | Raise e => (db1, Raise e)
                  end).2)).
    { intros j'. destruct (unpack_into (resp_init k) j') as [item|e]; [|done].
      rewrite (IH (acc ++ [item])), (IH ([] ++ [item])). simpl.
      destruct (loop k rest [] db1) as [db2 [items|e]]; simpl; [|done].
      unfold outcome_map. simpl. by rewrite <- app_assoc. }
    destruct j; try apply Hitem. apply IH.
Qed.

Lemma records_delete id (db : redis) : held (delete id db) = delete id (held db).
Proof.
  apply map_eq. intros i. unfold records.
  rewrite lookup_omap. destruct (decide (i = id)) as [->|Hne].
  - by rewrite !lookup_delete_eq.
  - rewrite !lookup_delete_ne by done. by rewrite lookup_omap.
Qed.

Lemma records_absent id (db : redis) :
  truthy (redis_get id db) = None → held db !! id = None.
Proof.
  unfold records, redis_get. rewrite lookup_omap.
  destruct (db !! id) as [[v ttl]|]; simpl; [|done].
  unfold decoded. simpl. by intros ->.
Qed.

Lemma records_present id (db : redis) bytes r :
  redis_get id db = Some bytes → bytes ≠ EmptyString →
  json_loads bytes = Some (JDict r) → held db !! id = Some r.
Proof.
  unfold records, redis_get. rewrite lookup_omap.
  destruct (db !! id) as [[v ttl]|]; simpl; [|done].
  intros [= ->] Hne Hl. unfold decoded. simpl.
  destruct bytes; [done|]. by rewrite Hl.
Qed.

Lemma redis_get_delete_ne id id' (db : redis) :
  id ≠ id' → redis_get id' (delete id db) = redis_get id' db.
Proof. intros. unfold redis_get. by rewrite lookup_delete_ne. Qed.

Local Abbreviation answerable := (answerable json_loads Resp resp_init).

Lemma answerable_tail k id ids db : answerable k (id :: ids) db → answerable k ids db.
Proof. intros H i bytes Hi. apply (H i bytes). by right. Qed.

Lemma answerable_delete k id ids db :
  answerable k ids db → answerable k ids (delete id db).
Proof.
  intros H i bytes Hi Ht. destruct (decide (id = i)) as [->|Hne].
  - by rewrite redis_get_delete in Ht.
  - rewrite redis_get_delete_ne in Ht by done. by apply (H i bytes).
Qed.

Lemma retrieve_loop_refines k ids db :
  answerable k ids db →
  ∃ db' items,
    loop k ids [] db = (db', Return items) ∧
    held db' = (Correlator.consumeMany ids (held db)).1 ∧
    Some <$> items = resp_init k <$> (Correlator.consumeMany ids (held db)).2.
Proof.
  revert db. induction ids as [|id rest IH]; intros db Hok.
  - by exists db, [].
  - destruct (truthy (redis_get id db)) as [bytes|] eqn:Ht.
    + destruct (Hok id bytes) as (r & item & Hl & Hi); [by left|done|].
      apply truthy_Some in Ht as [Hget Hne].
      destruct (IH (delete id db)) as (db' & items & Hrun & Hdb & Hitems).
      { by apply answerable_delete, answerable_tail with id. }
      exists db', (item :: items).
      rewrite (loop_hit k id rest [] db bytes r item) by done.
      rewrite loop_acc, Hrun. simpl. unfold Correlator.consume.
      rewrite (records_present id db bytes r) by done.
      rewrite records_delete in Hdb, Hitems.
      destruct (Correlator.consumeMany rest (delete id (held db))) as [c2 others].
      simpl in *. split_and!; [done..|]. rewrite Hi. f_equal. exact Hitems.
    + destruct (IH db) as (db' & items & Hrun & Hdb & Hitems).
      { by apply answerable_tail with id. }
      exists db', items. rewrite loop_skip by done.
      simpl. unfold Correlator.consume.
      rewrite (records_absent id db Ht).
      rewrite (delete_id (held db) id) by (by apply records_absent).
      destruct (Correlator.consumeMany rest (held db)) as [c2 others]. done.
Qed.

Lemma retrieve_loop_nothing k ids acc db :
  (∀ id, id ∈ ids → truthy (redis_get id db) = None) → loop k ids acc db = (db, Return acc).
Proof.
  induction ids as [|id rest IH]; intros Hnone; [done|].
  rewrite loop_skip by (apply Hnone; by left).
  apply IH. intros i Hi. apply Hnone. by right.
Qed.

Local Abbreviation route := (retrieve_route json_loads Resp resp_init).
Local Abbreviation holds := (holds json_loads Resp resp_init).

Lemma retrieve_route_loop k ids : route k ids = loop k ids [].
Proof. by destruct k. Qed.

(** What a call of the helper can do to the store and answer. *)
Lemma consume_cases id db :
  (truthy (redis_get id db) = None ∧ consume id db = (db, Return JNull)) ∨
  (∃ bytes, redis_get id db = Some bytes ∧ bytes ≠ EmptyString ∧
            consume id db = (delete id db, of_option JSONDecodeError (json_loads bytes))).
Proof.
  destruct (truthy (redis_get id db)) as [bytes|] eqn:Ht.
  - right. apply truthy_Some in Ht as [? ?]. exists bytes.
    by rewrite (consume_present id bytes db).
  - left. by rewrite (consume_absent id db).
Qed.

Lemma redis_get_delete_Some id id' (db : redis) bytes :
  redis_get id' (delete id db) = Some bytes → id ≠ id' ∧ redis_get id' db = Some bytes.
Proof.
  intros H. destruct (decide (id = id')) as [->|Hne].
  - by rewrite redis_get_delete in H.
  - by rewrite redis_get_delete_ne in H.
Qed.

Lemma holds_delete k id id' (db : redis) item :
  holds k (delete id db) id' item → id ≠ id' ∧ holds k db id' item.
Proof.
  intros (bytes & r & Hget & Hne & Hl & Hi).
  apply redis_get_delete_Some in Hget as [? ?]. split; [done|]. by exists bytes, r.
Qed.

Lemma retrieve_loop_order k ids db db' items :
  loop k ids [] db = (db', Return items) →
  ∃ hits, (hits `sublist_of` ids) ∧ NoDup hits ∧ Forall2 (holds k db) hits items.
Proof.
  revert db items. induction ids as [|id rest IH]; intros db items Hrun.
  - injection Hrun as _ <-. exists []. split_and!; constructor.
  - rewrite loop_cons in Hrun.
    destruct (consume_cases id db) as [[Ht Hc]|(bytes & Hget & Hne & Hc)]; rewrite Hc in Hrun.
    + destruct (IH db items Hrun) as (hits & Hsub & Hnd & Hall).
      exists hits. split_and!; [by apply sublist_cons | done..].
    + destruct (json_loads bytes) as [j|] eqn:Hl; simpl in Hrun; [|done].
      assert (Hdrop : ∀ its, loop k rest [] (delete id db) = (db', Return its) →
                ∃ hits, (hits `sublist_of` rest) ∧ NoDup hits ∧ (id ∉ hits) ∧
                        Forall2 (holds k db) hits its).
      { intros its Hr. destruct (IH _ _ Hr) as (hits & Hsub & Hnd & Hall).
        exists hits. split_and!; [done | done | |].
        - intros Hin. apply list_elem_of_lookup in Hin as [i Hi].
          destruct (Forall2_lookup_l _ _ _ _ _ Hall Hi) as (it & _ & Hh).
          by apply holds_delete in Hh as [? _].
        - eapply Forall2_impl; [exact Hall|]. intros i it Hh.
          by apply holds_delete in Hh as [_ ?]. }
      destruct j as [| | | | |r];
        try (simpl in Hrun; done);
        [destruct (Hdrop items Hrun) as (hits & ? & ? & _ & ?); exists hits;
         split_and!; [by apply sublist_cons | done..] |].
      simpl in Hrun. destruct (resp_init k r) as [item|] eqn:Hi; simpl in Hrun; [|done].
      rewrite loop_acc in Hrun.
      destruct (loop k rest [] (delete id db)) as [db2 [its|e]] eqn:Hr; simpl in Hrun; [|done].
      injection Hrun as -> <-.
      destruct (Hdrop its eq_refl) as (hits & Hsub & Hnd & Hnin & Hall).
      exists (id :: hits). split_and!.
      * by apply sublist_skip.
      * by constructor.
      * constructor; [by exists bytes, r | done].
Qed.

(** C8. The records a batched retrieval returns come in the order of their
    identifiers in the request: they are the records of a duplicate-free
    subsequence of the requested identifiers, one for one. *)
Theorem retrieve_route_keeps_order (k : resp_kind) (ids : list string)
    (db db' : redis) (items : list (Resp k)) :
  route k ids db = (db', Return items) →
  ∃ hits, (hits `sublist_of` ids) ∧ NoDup hits ∧ Forall2 (holds k db) hits items.
Proof. rewrite retrieve_route_loop. apply retrieve_loop_order. Qed.

(** The loop over a request in two parts. *)
Lemma loop_app k l1 l2 acc db :
  loop k (l1 ++ l2) acc db =
  match loop k l1 acc db with
  | (db1, Return acc1) => loop k l2 acc1 db1
  | (db1, Raise e) => (db1, Raise e)
  end.
Proof.
  revert acc db. induction l1 as [|id l1 IH]; intros acc db; [done|].
  rewrite <- app_comm_cons, !loop_cons.
  destruct (consume id db) as [db1 [j|e]]; [|done].
  destruct j; try apply IH;
    match goal with |- context [unpack_into ?f ?j] => destruct (unpack_into f j) end;
    try done; apply IH.
Qed.

(** The loop does not touch what it was not asked for. *)
Lemma loop_other k l acc db id :
  id ∉ l → redis_get id (loop k l acc db).1 = redis_get id db.
Proof.
  revert acc db. induction l as [|x l IH]; intros acc db Hnin; [done|].
  apply not_elem_of_cons in Hnin as [Hne Hnin].
  rewrite loop_cons.
  destruct (consume_cases x db) as [[_ Hc]|(bytes & _ & _ & Hc)]; rewrite Hc.
  - by apply IH.
  - assert (Hd : redis_get id (delete x db) = redis_get id db)
      by (by apply redis_get_delete_ne).
    destruct (json_loads bytes) as [j|]; simpl; [|done].
    destruct j; try (rewrite IH by done; exact Hd);
      match goal with |- context [unpack_into ?f ?j] => destruct (unpack_into f j) end;
      simpl; try done; by rewrite IH.
Qed.


(** ** The helpers against the correlator of the specification *)

Lemma store_refines id r db :
  storable r → held (store id r db).1 = Correlator.store id r (held db).
Proof.
  intros [Hne Hrt]. rewrite store_run. simpl. unfold Correlator.store.
  apply map_eq. intros i. unfold records. rewrite lookup_omap.
  destruct (decide (id = i)) as [->|Hi].
  - rewrite !lookup_insert_eq. simpl. unfold decoded. simpl.
    destruct (json_dumps (JDict r)) eqn:Hd; [done|]. by rewrite Hrt.
  - rewrite !lookup_insert_ne by done. by rewrite lookup_omap.
Qed.

Lemma consume_refines id db :
  held (consume id db).1 = (Correlator.consume id (held db)).1 ∧
  (∀ r, held db !! id = Some r → (consume id db).2 = Return (JDict r)) ∧
  (truthy (redis_get id db) = None → (consume id db).2 = Return JNull).
Proof.
  unfold Correlator.consume. simpl.
  destruct (consume_cases id db) as [[Ht Hc]|(bytes & Hget & Hne & Hc)]; rewrite Hc; simpl.
  - split_and!; [|by rewrite (records_absent id db Ht)|done].
    symmetry. apply delete_id. by apply records_absent.
  - split_and!; [apply records_delete| |].
    + intros r. unfold records, redis_get in *. rewrite lookup_omap.
      destruct (db !! id) as [[v ttl]|]; simpl in *; [|done].
      injection Hget as ->. unfold decoded. simpl.
      destruct bytes; [done|]. destruct (json_loads _) as [[]|]; try done.
      by intros [= ->].
    + intros Ht. apply truthy_None in Ht as [Ht|Ht]; congruence.
Qed.

(** Asking for identifiers that have nothing changes nothing either. *)
Lemma loop_only_present k ids acc db (P : string → Prop) `{!∀ x, Decision (P x)} :
  (∀ id, id ∈ ids → ¬ P id → truthy (redis_get id db) = None) →
  loop k ids acc db = loop k (filter P ids) acc db.
Proof.
  revert acc db. induction ids as [|x rest IH]; intros acc db Habs; [done|].
  assert (Hrest : ∀ id, id ∈ rest → ¬ P id → truthy (redis_get id db) = None).
  { intros id Hin. apply Habs. by right. }
  assert (Hdel : ∀ id, id ∈ rest → ¬ P id → truthy (redis_get id (delete x db)) = None).
  { intros id Hin HP. destruct (decide (x = id)) as [->|Hne].
    - by rewrite redis_get_delete.
    - rewrite redis_get_delete_ne by done. by apply Hrest. }
  rewrite filter_cons. destruct (decide (P x)) as [HP|HP].
  - rewrite !loop_cons.
    destruct (consume_cases x db) as [[_ Hc]|(bytes & _ & _ & Hc)]; rewrite Hc.
    + by apply IH.
    + destruct (json_loads bytes) as [j|]; simpl; [|done].
      destruct j; try (by apply IH);
        match goal with |- context [unpack_into ?f ?j] => destruct (unpack_into f j) end;
        try done; by apply IH.
  - rewrite loop_skip by (apply Habs; [by left | done]). by apply IH.
Qed.

(** C3, as the code has it.  The batched retrieval does what [consumeMany]
    says, as long as it can read what it finds.  An identifier
    that has no record is passed over: the answer and the store are those of
    the request without it, and when no requested identifier has a record the
    answer is the empty list, not an error.  Whenever the records it meets
    are ones its schema accepts, the route returns: it has consumed each
    requested identifier in the order given, and it answers the records
    found, leaving out the identifiers that had none. *)
Theorem retrieve_route_consumes_each (k : resp_kind) (ids : list string) (db : redis) :
  route k ids db
    = route k (filter (λ id, is_Some (truthy (redis_get id db))) ids) db ∧
  ((∀ id, id ∈ ids → truthy (redis_get id db) = None) →
   route k ids db = (db, Return [])) ∧
  (answerable k ids db →
   ∃ db' items,
     route k ids db = (db', Return items) ∧
     held db' = (Correlator.consumeMany ids (held db)).1 ∧
     Some <$> items = resp_init k <$> (Correlator.consumeMany ids (held db)).2).
Proof.
  rewrite !retrieve_route_loop. split_and!.
  - apply loop_only_present. intros id _ Hno.
    destruct (truthy (redis_get id db)); [|done]. destruct Hno. by eexists.
  - apply retrieve_loop_nothing.
  - apply retrieve_loop_refines.
Qed.


(** ** The command routes *)

Local Abbreviation dispatch :=
  (command_route json_loads http_status_phrase BLEDevice BLEDevice_init gateway).
Local Abbreviation ack := (acknowledgement gateway).

Ltac run_command Hack :=
  unfold command_route, acknowledgement in *;
  unfold get_available_sensors, get_provisioned_sensors, add_provisioned_sensors,
    add_registered_sensors, set_gateway_model, set_sensor_state,
    command_get_sensor_state, set_inference_layer, command_get_inference_layer,
    set_sensor_config, command_get_sensor_config, set_sensor_model,
    set_inf_latency_bench, post_json;
  simpl in Hack; rewrite Hack; simpl.

(** A refused command: the route decodes the body and raises. *)
Lemma dispatch_rejected c command cmd_response :
  ack c command = Some cmd_response →
  status_code cmd_response ≠ expected_status c →
  dispatch c command =
  match json_loads (content cmd_response) with
  | Some detail =>
      Raise (http_exception http_status_phrase (status_code cmd_response) detail)
  | None => Raise JSONDecodeError
  end.
Proof.
  intros Hack Hstatus.
  destruct c; run_command Hack; simpl in Hstatus;
    (case_decide; [|done]); unfold response_json;
    by destruct (json_loads (content cmd_response)).
Qed.

(** The constructor keeps every detail but [None]. *)
Lemma http_exception_keeps status detail :
  detail ≠ JNull →
  http_exception http_status_phrase status detail = HTTPException status detail.
Proof. by destruct detail. Qed.

(** C6, as the code has it.  When the gateway answers a command with a
    status other than the one its route expects and a body that is a JSON
    document other than null, the route raises an HTTP error that carries
    that very status and, as its detail, that body decoded. *)
Theorem unexpected_status_is_passed_on (c : command_kind) (command : command)
    (cmd_response : http_response) (detail : json) :
  ack c command = Some cmd_response →
  status_code cmd_response ≠ expected_status c →
  json_loads (content cmd_response) = Some detail →
  detail ≠ JNull →
  dispatch c command = Raise (HTTPException (status_code cmd_response) detail).
Proof.
  intros Hack Hstatus Hbody Hdetail.
  rewrite (dispatch_rejected c command cmd_response Hack Hstatus), Hbody.
  by rewrite http_exception_keeps.
Qed.

(** C10. When the gateway accepts a get-style sensor command (state,
    inference layer, configuration) with the expected status and a JSON
    object that has no [command_uuids] field, the route returns normally,
    with a null [command_uuids] in its answer. *)
Theorem missing_command_uuids_is_null (c : command_kind) (command : command)
    (cmd_response : http_response) (fields : gmap string json) :
  c ∈ [GetSensorState; GetInferenceLayer; GetSensorConfig] →
  ack c command = Some cmd_response →
  status_code cmd_response = HTTP_202_ACCEPTED →
  json_loads (content cmd_response) = Some (JDict fields) →
  fields !! "command_uuids" = None →
  ∃ answer, dispatch c command = Return (Body BLEDevice answer) ∧
            answer !! "command_uuids" = Some JNull ∧
            is_Some (answer !! "message").
Proof.
  intros Hc Hack Hstatus Hbody Hmiss.
  repeat (apply elem_of_cons in Hc as [->|Hc]); [..|by apply elem_of_nil in Hc];
    run_command Hack; (case_decide; [done|]);
    unfold response_json; rewrite Hbody; simpl; rewrite Hmiss; simpl;
    (eexists; split; [reflexivity|]); unfold message_with_uuids, message;
    (split; [by rewrite lookup_insert_eq|]);
    rewrite lookup_insert_ne by done; rewrite lookup_singleton_eq; by eexists.
Qed.

(** ** Two callers on one identifier *)

Local Abbreviation step := (consumer_step json_loads).
Local Abbreviation run := (run_schedule json_loads).

(** A caller that is left alone does what the helper does. *)
Lemma consumer_alone id db :
  let '(db1, c1) := step id BeforeGet db in
  step id c1 db1 = ((consume id db).1, Finished (consume id db).2).
Proof.
  simpl. destruct (consume_cases id db) as [[Ht Hc]|(bytes & Hget & Hne & Hc)]; rewrite Hc.
  - by rewrite Ht.
  - assert (Ht : truthy (redis_get id db) = Some bytes) by (by apply truthy_Some).
    by rewrite Ht.
Qed.

Lemma run_cons id who schedule s :
  run id (who :: schedule) s = run id schedule (shared_step json_loads id who s).
Proof. reflexivity. Qed.

Section TwoConsumers.

Variable id : string.
Variable r : gmap string json.
Hypothesis Hr : storable r.

Local Abbreviation bytes := (json_dumps (JDict r)).
Local Abbreviation got := (Finished (Return (JDict r))).
Local Abbreviation missed := (Finished (Return JNull)).

Lemma step_get_present db ttl :
  db !! id = Some (Entry bytes ttl) → step id BeforeGet db = (db, BeforeDelete bytes).
Proof.
  intros Hdb. destruct Hr as [Hne _]. simpl. unfold redis_get. rewrite Hdb. simpl.
  by destruct (json_dumps (JDict r)).
Qed.

Lemma step_get_absent (db : redis) :
  db !! id = None → step id BeforeGet db = (db, missed).
Proof. intros Hdb. simpl. unfold redis_get. by rewrite Hdb. Qed.

Lemma step_delete (db : redis) :
  step id (BeforeDelete bytes) db = (delete id db, got).
Proof. destruct Hr as [_ Hl]. simpl. by rewrite Hl. Qed.

Lemma racing_step who s :
  racing json_dumps id r s → racing json_dumps id r (shared_step json_loads id who s).
Proof.
  destruct s as [db c1 c2]. unfold racing.
  intros [([ttl Hdb] & H1 & H2)|(Hdb & H1 & H2 & Hgot)]; simpl in *.
  - destruct who; simpl.
    + destruct H1 as [->| ->].
      * rewrite (step_get_present db ttl Hdb). left. simpl. eauto.
      * rewrite step_delete. right. simpl. rewrite lookup_delete_eq.
        split_and!; [done | by auto | destruct H2 as [->| ->]; by auto | by left].
    + destruct H2 as [->| ->].
      * rewrite (step_get_present db ttl Hdb). left. simpl. eauto.
      * rewrite step_delete. right. simpl. rewrite lookup_delete_eq.
        split_and!; [done | destruct H1 as [->| ->]; by auto | by auto | by right].
  - right. destruct who; simpl.
    + destruct H1 as [->|[->|[->| ->]]].
      * rewrite (step_get_absent db Hdb). simpl. split_and!; [done | by auto | done |].
        destruct Hgot as [Hg|Hg]; [done | by right].
      * rewrite step_delete. simpl. rewrite lookup_delete_eq.
        split_and!; [done | by auto | done | by left].
      * simpl. split_and!; [done | by auto | done | by left].
      * simpl. split_and!; [done | by auto | done |].
        destruct Hgot as [Hg|Hg]; [done | by right].
    + destruct H2 as [->|[->|[->| ->]]].
      * rewrite (step_get_absent db Hdb). simpl. split_and!; [done | done | by auto |].
        destruct Hgot as [Hg|Hg]; [by left | done].
      * rewrite step_delete. simpl. rewrite lookup_delete_eq.
        split_and!; [done | done | by auto | by right].
      * simpl. split_and!; [done | done | by auto | by right].
      * simpl. split_and!; [done | done | by auto |].
        destruct Hgot as [Hg|Hg]; [by left | done].
Qed.

Lemma racing_run schedule s :
  racing json_dumps id r s → racing json_dumps id r (run id schedule s).
Proof.
  revert s. induction schedule as [|who schedule IH]; intros s Hs; [done|].
  rewrite run_cons. by apply IH, racing_step.
Qed.

Lemma first_served_run schedule s :
  first_served id r s → first_served id r (run id schedule s).
Proof.
  revert s. induction schedule as [|who schedule IH]; intros s Hs; [done|].
  rewrite run_cons. apply IH. destruct s as [db c1 c2], Hs as (Hdb & H1 & H2).
  unfold first_served. simpl in *. subst c1. destruct who; simpl; [by auto|].
  destruct H2 as [->| ->]; [rewrite (step_get_absent db Hdb)|]; simpl; by auto.
Qed.

Lemma second_served_run schedule s :
  second_served id r s → second_served id r (run id schedule s).
Proof.
  revert s. induction schedule as [|who schedule IH]; intros s Hs; [done|].
  rewrite run_cons. apply IH. destruct s as [db c1 c2], Hs as (Hdb & H2 & H1).
  unfold second_served. simpl in *. subst c2. destruct who; simpl; [|by auto].
  destruct H1 as [->| ->]; [rewrite (step_get_absent db Hdb)|]; simpl; by auto.
Qed.

Lemma first_served_start (db : redis) ttl :
  db !! id = Some (Entry bytes ttl) →
  first_served id r (run id [FirstCaller; FirstCaller] (Shared db BeforeGet BeforeGet)).
Proof.
  intros Hdb. unfold run_schedule.
  cbn [foldl shared_step first second store_of].
  rewrite (step_get_present db ttl Hdb). cbn [foldl shared_step first second store_of].
  rewrite step_delete.
  split_and!; simpl; [apply lookup_delete_eq | done | by left].
Qed.

Lemma second_served_start (db : redis) ttl :
  db !! id = Some (Entry bytes ttl) →
  second_served id r (run id [SecondCaller; SecondCaller] (Shared db BeforeGet BeforeGet)).
Proof.
  intros Hdb. unfold run_schedule.
  cbn [foldl shared_step first second store_of].
  rewrite (step_get_present db ttl Hdb). cbn [foldl shared_step first second store_of].
  rewrite step_delete.
  split_and!; simpl; [apply lookup_delete_eq | done | by left].
Qed.

End TwoConsumers.

(** C1, as the code has it.  A call of the helper is two commands of the
    store, a GET and then a DELETE, and the commands of two callers can
    alternate.  For a record just stored and two callers that consume it:
    whatever the order of their commands, once both have finished at least
    one of them has the record, each has the record or nothing, and the
    record is out of the store; and when one caller runs its two commands
    before the other starts, that caller has the record and the other has
    nothing. *)
Theorem two_consumers_of_a_fresh_record (id : string) (r : gmap string json)
    (db : redis) (schedule : list caller) :
  storable r →
  let start := Shared (store id r db).1 BeforeGet BeforeGet in
  let final := run id schedule start in
  let got := Finished (Return (JDict r)) in
  let missed := Finished (Return JNull) in
  both_finished final →
  (first final = got ∨ second final = got) ∧
  (first final = got ∨ first final = missed) ∧
  (second final = got ∨ second final = missed) ∧
  store_of final !! id = None ∧
  (∀ rest, schedule = FirstCaller :: FirstCaller :: rest →
           first final = got ∧ second final = missed) ∧
  (∀ rest, schedule = SecondCaller :: SecondCaller :: rest →
           second final = got ∧ first final = missed).
Proof.
  intros Hr start final got missed [[r1 Hf1] [r2 Hf2]].
  assert (Hdb1 : (store id r db).1 !! id = Some (Entry (json_dumps (JDict r)) None)).
  { rewrite store_run. simpl. by rewrite lookup_insert_eq. }
  assert (Hstart : racing json_dumps id r start).
  { left. simpl. split_and!; [by exists None | by left | by left]. }
  pose proof (racing_run id r Hr schedule start Hstart) as Hfinal. fold final in Hfinal.
  destruct Hfinal as [(_ & [H1|H1] & _)|(Hdb & H1 & H2 & Hgot)]; [congruence..|].
  split_and!.
  - done.
  - destruct H1 as [H1|[H1|[H1|H1]]]; [congruence.. | by left | by right].
  - destruct H2 as [H2|[H2|[H2|H2]]]; [congruence.. | by left | by right].
  - done.
  - intros rest ->.
    pose proof (first_served_start id r Hr _ None Hdb1) as Hs.
    assert (Heq : final = run id rest (run id [FirstCaller; FirstCaller] start)) by reflexivity.
    clearbody final. subst final. unfold start in *.
    pose proof (first_served_run id r rest _ Hs) as (_ & Hg & Hm).
    split; [done|]. destruct Hm as [Hm|Hm]; [congruence|done].
  - intros rest ->.
    pose proof (second_served_start id r Hr _ None Hdb1) as Hs.
    assert (Heq : final = run id rest (run id [SecondCaller; SecondCaller] start)) by reflexivity.
    clearbody final. subst final. unfold start in *.
    pose proof (second_served_run id r rest _ Hs) as (_ & Hg & Hm).
    split; [done|]. destruct Hm as [Hm|Hm]; [congruence|done].
Qed.

(** ** More on the command routes *)

Local Abbreviation device_of := (device_of BLEDevice BLEDevice_init).
Local Abbreviation Devices' := (Devices BLEDevice).
Local Abbreviation Body' := (Body BLEDevice).

Lemma command_kind_cases c : c ∈ message_routes ∨ c ∈ uuid_routes ∨ c ∈ device_routes.
Proof.
  unfold message_routes, uuid_routes, device_routes.
  destruct c; rewrite !elem_of_cons; naive_solver.
Qed.

Lemma dispatch_unreachable c command :
  ack c command = None → dispatch c command = Raise TransportError.
Proof. intros Hack. destruct c; by run_command Hack. Qed.

Lemma dispatch_message c command cmd_response :
  c ∈ message_routes →
  ack c command = Some cmd_response →
  status_code cmd_response = expected_status c →
  ∃ text, sent_message c = Some text ∧
          dispatch c command = Return (Body' (message text)).
Proof.
  intros Hc Hack Hstatus. unfold message_routes in Hc.
  repeat (apply elem_of_cons in Hc as [->|Hc]); [..|by apply elem_of_nil in Hc];
    run_command Hack; simpl in Hstatus; (case_decide; [done|]);
    eexists; (split; [reflexivity|]); reflexivity.
Qed.

Lemma dispatch_uuids c command cmd_response :
  c ∈ uuid_routes →
  ack c command = Some cmd_response →
  status_code cmd_response = expected_status c →
  ∃ text, sent_message c = Some text ∧
          dispatch c command =
          match json_loads (content cmd_response) with
          | Some (JDict fields) =>
              Return (Body' (message_with_uuids text (default JNull (fields !! "command_uuids"))))
          | Some _ => Raise AttributeError
          | None => Raise JSONDecodeError
          end.
Proof.
  intros Hc Hack Hstatus. unfold uuid_routes in Hc.
  repeat (apply elem_of_cons in Hc as [->|Hc]); [..|by apply elem_of_nil in Hc];
    run_command Hack; simpl in Hstatus; (case_decide; [done|]);
    eexists; (split; [reflexivity|]); unfold response_json;
    (destruct (json_loads (content cmd_response)) as [[]|]; simpl; reflexivity).
Qed.

Lemma dispatch_devices c command cmd_response :
  c ∈ device_routes →
  ack c command = Some cmd_response →
  status_code cmd_response = expected_status c →
  dispatch c command =
  match json_loads (content cmd_response) with
  | Some body =>
      outcome_map Devices'
        (outcome_bind (iterate body) (comprehension (unpack_into BLEDevice_init)))
  | None => Raise JSONDecodeError
  end.
Proof.
  intros Hc Hack Hstatus. unfold device_routes in Hc.
  repeat (apply elem_of_cons in Hc as [->|Hc]); [..|by apply elem_of_nil in Hc];
    run_command Hack; simpl in Hstatus; (case_decide; [done|]);
    unfold response_json; by destruct (json_loads (content cmd_response)).
Qed.

(** A comprehension returns exactly when every element does, and then it
    returns the results in the order of the elements. *)
Lemma comprehension_returns {A B} (f : A → outcome B) l ys :
  comprehension f l = Return ys ↔ Forall2 (λ x y, f x = Return y) l ys.
Proof.
  revert ys. induction l as [|x l IH]; intros ys; simpl.
  - split; [intros [= <-]; constructor | by intros ->%Forall2_nil_inv_l].
  - unfold mbind, outcome_mbind, outcome_bind. split.
    + destruct (f x) as [y|e] eqn:Hx; [|done].
      destruct (comprehension f l) as [ys'|e] eqn:Hl; [|done].
      intros [= <-]. constructor; [done|]. by apply IH.
    + intros (y & ys' & Hx & Hl & ->)%Forall2_cons_inv_l.
      rewrite Hx. apply IH in Hl. by rewrite Hl.
Qed.

(** What it raises was raised by one of its elements. *)
Lemma comprehension_raises {A B} (f : A → outcome B) l e :
  comprehension f l = Raise e → ∃ x, x ∈ l ∧ f x = Raise e.
Proof.
  induction l as [|x l IH]; simpl; [done|].
  unfold mbind, outcome_mbind, outcome_bind.
  destruct (f x) as [y|e'] eqn:Hx.
  - destruct (comprehension f l) as [ys'|e''] eqn:Hl; [done|].
    intros [= ->]. destruct (IH eq_refl) as (x' & Hin & Hx'). exists x'. split; [by right|done].
  - intros [= ->]. exists x. split; [by left|done].
Qed.

Lemma unpack_into_returns (device : json) (d : BLEDevice) :
  unpack_into BLEDevice_init device = Return d ↔ device_of device d.
Proof.
  unfold device_of. destruct device; simpl; try (split; [done | by intros (? & ? & ?)]).
  split.
  - destruct (BLEDevice_init d0) as [d'|] eqn:Hi; [|done]. intros [= <-]. by eexists.
  - intros (fields & [= <-] & ->). done.
Qed.

(** X1. When the gateway cannot be reached in time, every command route
    raises the transport error; none of them answers or raises an HTTP
    error. *)
Theorem unreachable_gateway_is_a_transport_error (c : command_kind) (command : command) :
  ack c command = None → dispatch c command = Raise TransportError.
Proof. apply dispatch_unreachable. Qed.

(** X2. A command route returns normally only if the gateway acknowledged
    the command with the status that the route expects. *)
Theorem normal_return_needs_expected_status (c : command_kind) (command : command)
    (answer : reply BLEDevice) :
  dispatch c command = Return answer →
  ∃ cmd_response, ack c command = Some cmd_response ∧
                  status_code cmd_response = expected_status c.
Proof.
  intros Hrun. destruct (ack c command) as [cmd_response|] eqn:Hack.
  - exists cmd_response. split; [done|].
    destruct (decide (status_code cmd_response = expected_status c)) as [|Hne]; [done|].
    rewrite (dispatch_rejected c command cmd_response Hack Hne) in Hrun.
    by destruct (json_loads (content cmd_response)).
  - by rewrite (dispatch_unreachable c command Hack) in Hrun.
Qed.

(** X3. The only HTTP error a command route raises is the relayed refusal
    of the gateway: its status is the status of the acknowledgement, which is
    not the expected one, and the body of the acknowledgement is JSON; its
    detail is that body decoded, except for the body null, for which the
    detail is the phrase of the status. *)
Theorem http_error_is_a_relayed_refusal (c : command_kind) (command : command)
    (status : Z) (detail : json) :
  dispatch c command = Raise (HTTPException status detail) →
  ∃ cmd_response body,
    ack c command = Some cmd_response ∧
    status_code cmd_response = status ∧
    status ≠ expected_status c ∧
    json_loads (content cmd_response) = Some body ∧
    (body ≠ JNull ∧ detail = body ∨
     body = JNull ∧ ∃ phrase, http_status_phrase status = Some phrase ∧ detail = JStr phrase).
Proof.
  intros Hrun. destruct (ack c command) as [cmd_response|] eqn:Hack;
    [|by rewrite (dispatch_unreachable c command Hack) in Hrun].
  exists cmd_response.
  destruct (decide (status_code cmd_response = expected_status c)) as [Heq|Hne].
  - exfalso. destruct (command_kind_cases c) as [Hc|[Hc|Hc]].
    + destruct (dispatch_message c command cmd_response Hc Hack Heq) as (text & _ & Ht).
      by rewrite Ht in Hrun.
    + destruct (dispatch_uuids c command cmd_response Hc Hack Heq) as (text & _ & Ht).
      rewrite Ht in Hrun. by destruct (json_loads (content cmd_response)) as [[]|].
    + rewrite (dispatch_devices c command cmd_response Hc Hack Heq) in Hrun.
      destruct (json_loads (content cmd_response)) as [body|]; [|done].
      unfold outcome_map, outcome_bind in Hrun.
      destruct (iterate body) as [devices|e] eqn:Hit.
      * destruct (comprehension _ devices) as [ds|e] eqn:Hcomp; [done|].
        injection Hrun as ->.
        destruct (comprehension_raises _ _ _ Hcomp) as (x & _ & Hx).
        destruct x; simpl in Hx; try done.
        match type of Hx with of_option _ ?o = _ => by destruct o end.
      * injection Hrun as ->. by destruct body.
  - rewrite (dispatch_rejected c command cmd_response Hack Hne) in Hrun.
    destruct (json_loads (content cmd_response)) as [body|]; [|done].
    exists body. injection Hrun as Hrun.
    destruct body; simpl in Hrun;
      try (injection Hrun as <- <-; split_and!; try done; by left).
    destruct (http_status_phrase (status_code cmd_response)) as [phrase|] eqn:Hp; [|done].
    injection Hrun as <- <-. split_and!; try done. right. split; [done|]. by exists phrase.
Qed.

(** X4. An acknowledgement whose body is no JSON makes a command route
    raise the decoding error whenever the route reads the body: always when
    the status is not the expected one, and on the expected status in every
    route that does not answer a fixed message. *)
Theorem body_that_is_no_json_is_a_decode_error (c : command_kind) (command : command)
    (cmd_response : http_response) :
  ack c command = Some cmd_response →
  json_loads (content cmd_response) = None →
  status_code cmd_response ≠ expected_status c ∨ c ∉ message_routes →
  dispatch c command = Raise JSONDecodeError.
Proof.
  intros Hack Hbody Hreads.
  destruct (decide (status_code cmd_response = expected_status c)) as [Heq|Hne].
  - destruct Hreads as [?|Hc]; [done|].
    destruct (command_kind_cases c) as [?|[Hu|Hd]]; [done| |].
    + destruct (dispatch_uuids c command cmd_response Hu Hack Heq) as (text & _ & Ht).
      by rewrite Ht, Hbody.
    + by rewrite (dispatch_devices c command cmd_response Hd Hack Heq), Hbody.
  - by rewrite (dispatch_rejected c command cmd_response Hack Hne), Hbody.
Qed.

(** X5. The eight routes that answer a fixed message do not read the body
    of an accepted acknowledgement: with the expected status each returns
    the message of its kind, the one that [sent_message] lists, whatever the
    acknowledgement holds besides its status, JSON or not. *)
Theorem message_route_ignores_the_body (c : command_kind) (command : command)
    (cmd_response : http_response) :
  c ∈ message_routes →
  ack c command = Some cmd_response →
  status_code cmd_response = expected_status c →
  ∃ text, sent_message c = Some text ∧
          dispatch c command = Return (Body' {[ "message" := JStr text ]}).
Proof. apply dispatch_message. Qed.

(** X6. The three get-style sensor routes hand on the [command_uuids] of an
    accepted acknowledgement as they are, whatever JSON value they hold; a
    body that is JSON but no object makes them raise an attribute error. *)
Theorem uuid_route_hands_on_command_uuids (c : command_kind) (command : command)
    (cmd_response : http_response) (body : json) :
  c ∈ uuid_routes →
  ack c command = Some cmd_response →
  status_code cmd_response = expected_status c →
  json_loads (content cmd_response) = Some body →
  (∀ fields uuids, body = JDict fields → fields !! "command_uuids" = Some uuids →
     ∃ answer, dispatch c command = Return (Body' answer) ∧
               answer !! "command_uuids" = Some uuids) ∧
  ((∀ fields, body ≠ JDict fields) → dispatch c command = Raise AttributeError).
Proof.
  intros Hc Hack Hstatus Hbody.
  destruct (dispatch_uuids c command cmd_response Hc Hack Hstatus) as (text & _ & Ht).
  rewrite Hbody in Ht. split.
  - intros fields uuids -> Hu. rewrite Hu in Ht. simpl in Ht.
    eexists. split; [exact Ht|]. unfold message_with_uuids. by rewrite lookup_insert_eq.
  - intros Hno. destruct body; try done. by destruct (Hno d).
Qed.

(** X7. The two device routes, on an accepted acknowledgement whose body is
    a JSON list: they return exactly when [BLEDevice] accepts every element,
    and then they return one device per element, in the order of the list. *)
Theorem device_route_returns_the_devices (c : command_kind) (command : command)
    (cmd_response : http_response) (devices : list json) (ds : list BLEDevice) :
  c ∈ device_routes →
  ack c command = Some cmd_response →
  status_code cmd_response = expected_status c →
  json_loads (content cmd_response) = Some (JList devices) →
  dispatch c command = Return (Devices' ds) ↔ Forall2 device_of devices ds.
Proof.
  intros Hc Hack Hstatus Hbody.
  rewrite (dispatch_devices c command cmd_response Hc Hack Hstatus), Hbody. simpl.
  unfold outcome_map, outcome_bind.
  destruct (comprehension (unpack_into BLEDevice_init) devices) as [ds'|e] eqn:Hcomp.
  - apply comprehension_returns in Hcomp.
    assert (Hall : Forall2 device_of devices ds').
    { eapply Forall2_impl; [exact Hcomp|]. intros x y. apply unpack_into_returns. }
    split.
    + by intros [= <-].
    + intros Hds. f_equal. f_equal.
      revert ds Hds. clear -Hall. induction Hall as [|x y l l' Hxy _ IH]; intros ds Hds.
      * by apply Forall2_nil_inv_l in Hds.
      * apply Forall2_cons_inv_l in Hds as (y' & ds' & Hxy' & Hds' & ->).
        f_equal; [|by apply IH].
        destruct Hxy as (f1 & -> & H1), Hxy' as (f2 & [= <-] & H2). congruence.
  - split; [done|]. intros Hds. exfalso.
    assert (Hret : comprehension (unpack_into BLEDevice_init) devices = Return ds).
    { apply comprehension_returns. eapply Forall2_impl; [exact Hds|].
      intros x y. apply unpack_into_returns. }
    congruence.
Qed.

(** X17. What a command route does is settled by the acknowledgement of
    one request, the POST of the dumped command to the url of the command's
    target followed by the path of the route's own kind: two gateways that
    acknowledge that request alike make the route behave alike, whatever they
    would answer to any other request. *)
Theorem route_depends_on_its_own_acknowledgement
    (gateway' : string → gmap string json → option http_response)
    (c : command_kind) (command : command) :
  acknowledgement gateway' c command = ack c command →
  command_route json_loads http_status_phrase BLEDevice BLEDevice_init gateway' c command
    = dispatch c command.
Proof.
  unfold acknowledgement. intros Hack.
  destruct c; unfold command_route;
    unfold get_available_sensors, get_provisioned_sensors, add_provisioned_sensors,
      add_registered_sensors, set_gateway_model, set_sensor_state,
      command_get_sensor_state, set_inference_layer, command_get_inference_layer,
      set_sensor_config, command_get_sensor_config, set_sensor_model,
      set_inf_latency_bench, post_json;
    simpl in Hack; by rewrite Hack.
Qed.

(** ** More on the response routes *)

Local Abbreviation put := (store_route json_dumps Resp resp_command_uuid resp_model_dump).

Lemma store_route_run k (response : Resp k) db :
  ∃ text, put k response db =
          (<[resp_command_uuid k response :=
               Entry (json_dumps (JDict (resp_model_dump k response))) None]> db,
           Return (message text)).
Proof. destruct k; by eexists. Qed.

(** X8. From one end to the other: a store route always acknowledges, and
    writes nothing but the key of the response's command uuid; when the
    response survives the JSON round trip and its schema reads its own dump
    back, the retrieve route of the same kind then returns exactly that
    response and removes it, and a second retrieval returns the empty
    list. *)
Theorem stored_response_is_retrieved_once (k : resp_kind) (response : Resp k) (db : redis) :
  storable (resp_model_dump k response) →
  resp_init k (resp_model_dump k response) = Some response →
  let id := resp_command_uuid k response in
  let db1 := (put k response db).1 in
  (∃ text, (put k response db).2 = Return (message text)) ∧
  (∀ other, other ≠ id → db1 !! other = db !! other) ∧
  route k [id] db1 = (delete id db1, Return [response]) ∧
  route k [id] (delete id db1) = (delete id db1, Return []).
Proof.
  intros [Hne Hrt] Hinit id db1.
  destruct (store_route_run k response db) as [text Hput].
  subst db1. rewrite Hput. simpl. fold id. rewrite !retrieve_route_loop. split_and!.
  - by exists text.
  - intros other Hother. by rewrite lookup_insert_ne.
  - rewrite (loop_hit k id [] [] _ (json_dumps (JDict (resp_model_dump k response)))
               (resp_model_dump k response) response); try done.
    apply redis_get_insert.
  - apply loop_skip. by rewrite redis_get_delete.
Qed.

(** X9. A record is deleted before it is decoded and validated.  When a
    request reaches an identifier whose value is no JSON, or is JSON but no
    object, or is an object that the schema refuses, the route raises; the
    value is gone from the store all the same, and so are the records that
    the request had consumed before it. *)
Theorem refused_record_is_consumed (k : resp_kind) (id : string)
    (before after : list string) (db db1 : redis) (items1 : list (Resp k)) (bytes : string) :
  id ∉ before →
  route k before db = (db1, Return items1) →
  redis_get id db = Some bytes → bytes ≠ EmptyString →
  (json_loads bytes = None →
   route k (before ++ id :: after) db = (delete id db1, Raise JSONDecodeError)) ∧
  (∀ j, json_loads bytes = Some j → j ≠ JNull → (∀ r, j ≠ JDict r) →
   route k (before ++ id :: after) db = (delete id db1, Raise TypeError)) ∧
  (∀ r, json_loads bytes = Some (JDict r) → resp_init k r = None →
   route k (before ++ id :: after) db = (delete id db1, Raise ValidationError)).
Proof.
  intros Hnin Hbefore Hget Hne. rewrite !retrieve_route_loop in *.
  assert (Hget1 : redis_get id db1 = Some bytes).
  { rewrite <- Hget. pose proof (loop_other k before [] db id Hnin) as H.
    by rewrite Hbefore in H. }
  assert (Hstep : loop k (before ++ id :: after) [] db =
            match of_option JSONDecodeError (json_loads bytes) with
            | Return JNull => loop k after items1 (delete id db1)
            | Return j =>
                match unpack_into (resp_init k) j with
                | Return item => loop k after (items1 ++ [item]) (delete id db1)
                | Raise e => (delete id db1, Raise e)
                end
            | Raise e => (delete id db1, Raise e)
            end).
  { by rewrite loop_app, Hbefore, loop_cons, (consume_present id bytes db1 Hget1 Hne). }
  rewrite Hstep. split_and!.
  - by intros ->.
  - intros j -> Hj Hr. simpl. destruct j; try done. by destruct (Hr d).
  - intros r -> Hr. simpl. by rewrite Hr.
Qed.

(** X10. A key that holds the empty byte string counts as having no record,
    and it is not deleted: the helper answers [None] and leaves the store as
    it is, and a retrieve route passes over the identifier. *)
Theorem empty_value_is_kept (k : resp_kind) (id : string) (rest : list string) (db : redis) :
  redis_get id db = Some EmptyString →
  consume id db = (db, Return JNull) ∧
  route k (id :: rest) db = route k rest db.
Proof.
  intros Hget. rewrite !retrieve_route_loop.
  assert (Ht : truthy (redis_get id db) = None) by (by rewrite Hget).
  split; [by apply consume_absent | by apply loop_skip].
Qed.

(** X11. A key that holds the JSON text of null is deleted by the helper,
    which answers [None] as if there had been no record; a retrieve route
    passes over the identifier, and the value is gone. *)
Theorem null_record_is_dropped (k : resp_kind) (id bytes : string)
    (rest : list string) (db : redis) :
  redis_get id db = Some bytes → bytes ≠ EmptyString →
  json_loads bytes = Some JNull →
  consume id db = (delete id db, Return JNull) ∧
  route k (id :: rest) db = route k rest (delete id db).
Proof.
  intros Hget Hne Hnull. rewrite !retrieve_route_loop.
  assert (Hc : consume id db = (delete id db, Return JNull))
    by (by rewrite (consume_present id bytes db Hget Hne), Hnull).
  split; [done|]. by rewrite loop_cons, Hc.
Qed.

(** The loop leaves a key as it was or deletes it, and it deletes requested
    keys only. *)
Lemma loop_shrinks k ids acc db id :
  (loop k ids acc db).1 !! id = db !! id ∨
  (id ∈ ids ∧ (loop k ids acc db).1 !! id = None).
Proof.
  revert acc db. induction ids as [|x rest IH]; intros acc db; [by left|].
  rewrite loop_cons.
  assert (Hdel : ∀ acc', (loop k rest acc' (delete x db)).1 !! id = db !! id ∨
                         (id ∈ x :: rest ∧ (loop k rest acc' (delete x db)).1 !! id = None)).
  { intros acc'. destruct (IH acc' (delete x db)) as [Heq|[Hin Hnone]].
    - destruct (decide (x = id)) as [->|Hx].
      + right. split; [by left|]. by rewrite Heq, lookup_delete_eq.
      + left. by rewrite Heq, lookup_delete_ne.
    - right. split; [by right|done]. }
  destruct (consume_cases x db) as [[_ Hc]|(bytes & _ & _ & Hc)]; rewrite Hc.
  - destruct (IH acc db) as [?|[? ?]]; [by left|right]. split; [by right|done].
  - destruct (json_loads bytes) as [j|]; simpl.
    + destruct j; try apply Hdel;
        (match goal with |- context [unpack_into ?f ?j] => destruct (unpack_into f j) end;
         [apply Hdel|]); simpl;
        (destruct (decide (x = id)) as [->|Hx];
         [right; split; [by left|apply lookup_delete_eq] | left; by apply lookup_delete_ne]).
    + simpl. destruct (decide (x = id)) as [->|Hx];
        [right; split; [by left|apply lookup_delete_eq] | left; by apply lookup_delete_ne].
Qed.

(** X12. Whatever a retrieve route does, return or raise, it only removes:
    every key of the store is afterwards as it was before or absent, and a
    key that is absent afterwards and was not before is one of the requested
    identifiers. *)
Theorem retrieval_only_removes_requested_keys (k : resp_kind) (ids : list string)
    (db : redis) (id : string) :
  (route k ids db).1 !! id = db !! id ∨
  (id ∈ ids ∧ (route k ids db).1 !! id = None).
Proof. rewrite retrieve_route_loop. apply loop_shrinks. Qed.

Lemma consume_keeps_absent id x db :
  truthy (redis_get id db) = None → truthy (redis_get id (consume x db).1) = None.
Proof.
  intros Ht. destruct (consume_cases x db) as [[_ Hc]|(bytes & _ & _ & Hc)]; rewrite Hc; [done|].
  simpl. destruct (decide (x = id)) as [->|Hx].
  - by rewrite redis_get_delete.
  - by rewrite redis_get_delete_ne.
Qed.

Lemma loop_keeps_absent k ids acc db id :
  truthy (redis_get id db) = None → truthy (redis_get id (loop k ids acc db).1) = None.
Proof.
  intros Ht. unfold redis_get in *.
  destruct (loop_shrinks k ids acc db id) as [->|[_ ->]]; done.
Qed.

Lemma loop_leaves_nothing k ids acc db db' out id :
  loop k ids acc db = (db', Return out) → id ∈ ids → truthy (redis_get id db') = None.
Proof.
  revert acc db. induction ids as [|x rest IH]; intros acc db Hrun Hin.
  - by apply elem_of_nil in Hin.
  - rewrite loop_cons in Hrun.
    assert (Hx : ∀ acc' db1, truthy (redis_get x db1) = None →
                 loop k rest acc' db1 = (db', Return out) →
                 truthy (redis_get id db') = None).
    { intros acc' db1 Hnone Hr. apply elem_of_cons in Hin as [->|Hin].
      - pose proof (loop_keeps_absent k rest acc' db1 x Hnone) as H. by rewrite Hr in H.
      - by apply (IH acc' db1). }
    destruct (consume_cases x db) as [[Ht Hc]|(bytes & _ & _ & Hc)]; rewrite Hc in Hrun.
    + by apply (Hx acc db).
    + assert (Hgone : truthy (redis_get x (delete x db)) = None)
        by (by rewrite redis_get_delete).
      destruct (json_loads bytes) as [j|]; simpl in Hrun; [|done].
      destruct j; try (by apply (Hx acc (delete x db)));
        match type of Hrun with context [unpack_into ?f ?j] =>
          destruct (unpack_into f j) as [item|e]; [|done] end;
        by apply (Hx (acc ++ [item]) (delete x db)).
Qed.

(** X13. A request that returned has taken everything it asked for: asking
    again for the same identifiers returns the empty list and leaves the
    store as it is. *)
Theorem repeated_retrieval_is_empty (k : resp_kind) (ids : list string)
    (db db' : redis) (items : list (Resp k)) :
  route k ids db = (db', Return items) → route k ids db' = (db', Return []).
Proof.
  rewrite !retrieve_route_loop. intros Hrun.
  apply retrieve_loop_nothing. intros id Hin.
  by apply (loop_leaves_nothing k ids [] db db' items id).
Qed.

(** X14. A request can be split: when the first part returns, asking for
    the whole list at once gives what asking for the second part afterwards
    gives, with the records of the first part in front. *)
Theorem retrieval_of_an_appended_request (k : resp_kind) (ids1 ids2 : list string)
    (db db1 : redis) (items1 : list (Resp k)) :
  route k ids1 db = (db1, Return items1) →
  route k (ids1 ++ ids2) db
    = ((route k ids2 db1).1, outcome_map (app items1) (route k ids2 db1).2).
Proof.
  rewrite !retrieve_route_loop. intros Hrun.
  by rewrite loop_app, Hrun, loop_acc.
Qed.

(** X15. A store that comes between the GET and the DELETE of a caller is
    lost: the caller returns the record it had read, its DELETE removes the
    newer record, which nobody has read, and the next call finds nothing. *)
Theorem store_during_a_retrieval_is_lost (id : string) (r1 r2 : gmap string json)
    (db : redis) :
  storable r1 →
  let after_get := consumer_step json_loads id BeforeGet (store id r1 db).1 in
  let db3 := (store id r2 after_get.1).1 in
  let after_delete := consumer_step json_loads id after_get.2 db3 in
  redis_get id db3 = Some (json_dumps (JDict r2)) ∧
  after_delete.2 = Finished (Return (JDict r1)) ∧
  after_delete.1 !! id = None ∧
  consume id after_delete.1 = (after_delete.1, Return JNull).
Proof.
  intros Hr.
  assert (Hdb1 : (store id r1 db).1 !! id = Some (Entry (json_dumps (JDict r1)) None)).
  { rewrite store_run. simpl. by rewrite lookup_insert_eq. }
  rewrite (step_get_present id r1 Hr _ None Hdb1). cbv beta iota zeta.
  cbn [fst snd]. rewrite (step_delete id r1 Hr). rewrite !store_run. cbn [fst snd].
  split_and!.
  - apply redis_get_insert.
  - done.
  - apply lookup_delete_eq.
  - apply consume_absent. by rewrite redis_get_delete.
Qed.

(** X16. The three kinds share one keyspace: a store route of one kind
    under the command uuid of a record of another kind replaces that record,
    and leaves the store as if the replaced record had never been stored. *)
Theorem kinds_share_one_keyspace (k1 k2 : resp_kind) (response1 : Resp k1)
    (response2 : Resp k2) (db : redis) :
  resp_command_uuid k1 response1 = resp_command_uuid k2 response2 →
  (put k2 response2 (put k1 response1 db).1).1 = (put k2 response2 db).1 ∧
  redis_get (resp_command_uuid k1 response1) (put k2 response2 (put k1 response1 db).1).1
    = Some (json_dumps (JDict (resp_model_dump k2 response2))).
Proof.
  intros Huuid.
  destruct (store_route_run k1 response1 db) as [t1 H1]. rewrite H1. simpl.
  destruct (store_route_run k2 response2 db) as [t2 H2]. rewrite H2. simpl.
  destruct (store_route_run k2 response2
              (<[resp_command_uuid k1 response1 :=
                   Entry (json_dumps (JDict (resp_model_dump k1 response1))) None]> db))
    as [t3 H3]. rewrite H3. simpl.
  rewrite Huuid. split; [apply insert_insert_eq | apply redis_get_insert].
Qed.

End Properties.

(** * The service on the sample instance *)

Local Abbreviation sample_store := (store_response_in_redis Sample.dumps).
Local Abbreviation sample_consume := (retrieve_response_from_redis Sample.loads).
Local Abbreviation sample_retrieve :=
  (retrieve_route Sample.loads Sample.Resp Sample.resp_init).
Local Abbreviation sample_dispatch :=
  (command_route Sample.loads Sample.status_phrase Sample.ble_device Sample.BLEDevice_init
     Sample.gateway).
Local Abbreviation dump_U1 := (Sample.resp_model_dump SensorState Sample.state_U1).
Local Abbreviation dump_U2 := (Sample.resp_model_dump SensorState Sample.state_U2).

Lemma dump_U1_round_trips : round_trips Sample.dumps Sample.loads dump_U1.
Proof. split; vm_compute; [discriminate | reflexivity]. Defined.

Lemma dump_U2_round_trips : round_trips Sample.dumps Sample.loads dump_U2.
Proof. split; vm_compute; [discriminate | reflexivity]. Defined.

Example sample_end_to_end :
  sample_retrieve SensorState ["U1"] (Sample.stored SensorState Sample.state_U1 ∅)
    = (∅, Return [Sample.state_U1]) ∧
  sample_retrieve SensorState ["U1"] ∅ = (∅, Return []).
Proof. split; vm_compute; reflexivity. Qed.

Lemma consume_after_store_witness :
  round_trips Sample.dumps Sample.loads dump_U1 ∧
  let db1 := (sample_store "U1" dump_U1 ∅).1 in
  sample_consume "U1" db1 = (delete "U1" db1, Return (JDict dump_U1)) ∧
  sample_consume "U1" (delete "U1" db1) = (delete "U1" db1, Return JNull).
Proof.
  split; [exact dump_U1_round_trips|].
  destruct (consume_after_store Sample.dumps Sample.loads "U1" dump_U1 ∅
              dump_U1_round_trips) as (H1 & H2 & _).
  split; [exact H1 | exact H2].
Defined.

Lemma store_twice_last_wins_witness :
  round_trips Sample.dumps Sample.loads dump_U2 ∧
  let db2 := (sample_store "U1" dump_U2 (sample_store "U1" dump_U1 ∅).1).1 in
  db2 = (sample_store "U1" dump_U2 ∅).1 ∧
  sample_consume "U1" db2 = (delete "U1" db2, Return (JDict dump_U2)) ∧
  sample_consume "U1" (delete "U1" db2) = (delete "U1" db2, Return JNull).
Proof.
  split; [exact dump_U2_round_trips|].
  destruct (store_twice_last_wins Sample.dumps Sample.loads "U1" dump_U1 dump_U2 ∅
              dump_U2_round_trips) as (_ & _ & H1 & H2 & H3).
  split; [exact H1 | split; [exact H2 | exact H3]].
Defined.

Lemma store_consume_frame_witness :
  "U1" ≠ "U2" ∧
  (sample_store "U1" dump_U1 Sample.db_states).1 !! "U2" = Sample.db_states !! "U2" ∧
  (sample_consume "U2" (sample_store "U1" dump_U1 Sample.db_states).1).2
    = (sample_consume "U2" Sample.db_states).2 ∧
  (sample_consume "U2" Sample.db_states).1 !! "U1" = Sample.db_states !! "U1".
Proof.
  assert (Hne : "U1" ≠ "U2") by discriminate.
  split; [exact Hne|].
  destruct (store_consume_frame Sample.dumps Sample.loads "U1" "U2" dump_U1
              Sample.db_states Hne) as (H1 & H2 & H3 & _).
  split; [exact H1 | split; [exact H2 | exact H3]].
Defined.

Lemma stored_record_has_no_expiry_witness :
  round_trips Sample.dumps Sample.loads dump_U1 ∧
  let db1 := (sample_store "U1" dump_U1 ∅).1 in
  entry_ttl <$> db1 !! "U1" = Some None ∧
  elapse 31536000 db1 !! "U1" = db1 !! "U1" ∧
  sample_consume "U1" (elapse 31536000 db1)
    = (delete "U1" (elapse 31536000 db1), Return (JDict dump_U1)).
Proof.
  split; [exact dump_U1_round_trips|].
  destruct (stored_record_has_no_expiry Sample.dumps Sample.loads "U1" dump_U1 ∅
              31536000%N dump_U1_round_trips) as (H1 & H2 & H3 & _).
  split; [exact H1 | split; [exact H2 | exact H3]].
Defined.

(** Against C4 as the specification has it: the record that the store route
    wrote carries no expiry, and no amount of time removes it. *)
Lemma unpolled_record_never_expires :
  let db1 := (sample_store "U1" dump_U1 ∅).1 in
  entry_ttl <$> db1 !! "U1" = Some None ∧
  ¬ ∃ d : N, redis_get "U1" (elapse d db1) = None.
Proof.
  split; [reflexivity|]. intros [d Hd].
  unfold redis_get in Hd.
  rewrite (elapse_persistent d _ "U1" (Sample.dumps (JDict dump_U1))) in Hd;
    [discriminate | reflexivity].
Qed.

Lemma sample_states_answerable :
  answerable Sample.loads Sample.Resp Sample.resp_init SensorState
    ["U9"; "U2"; "U1"; "U2"] Sample.db_states.
Proof.
  intros id bytes Hin Ht.
  repeat (apply elem_of_cons in Hin as [->|Hin]); [..|by apply elem_of_nil in Hin];
    vm_compute in Ht; try discriminate Ht; injection Ht as <-;
    [exists dump_U2, Sample.state_U2 | exists dump_U1, Sample.state_U1
    | exists dump_U2, Sample.state_U2]; split; vm_compute; reflexivity.
Defined.

Lemma retrieve_route_consumes_each_witness :
  answerable Sample.loads Sample.Resp Sample.resp_init SensorState
    ["U9"; "U2"; "U1"; "U2"] Sample.db_states ∧
  ∃ db' items,
    sample_retrieve SensorState ["U9"; "U2"; "U1"; "U2"] Sample.db_states
      = (db', Return items) ∧
    Some <$> items =
      Sample.resp_init SensorState <$>
        (Correlator.consumeMany ["U9"; "U2"; "U1"; "U2"]
           (records Sample.loads Sample.db_states)).2.
Proof.
  split; [exact sample_states_answerable|].
  destruct (retrieve_route_consumes_each Sample.loads Sample.Resp Sample.resp_init
              SensorState ["U9"; "U2"; "U1"; "U2"] Sample.db_states) as (_ & _ & Hok).
  destruct (Hok sample_states_answerable) as (db' & items & H1 & _ & H2).
  exists db', items. split; [exact H1 | exact H2].
Defined.

(** Against C3 as the specification has it: a record that the sensor-state
    store route wrote is asked for through the inference-layer retrieve
    route, whose schema refuses it; the request raises instead of answering,
    and the record is gone. *)
Lemma record_of_another_kind_fails_the_retrieval :
  let db := Sample.stored SensorState Sample.state_U1 ∅ in
  sample_retrieve InferenceLayer ["U1"] db = (∅, Raise ValidationError) ∧
  ¬ ∃ db' items, sample_retrieve InferenceLayer ["U1"] db = (db', Return items).
Proof.
  assert (Hrun : sample_retrieve InferenceLayer ["U1"]
                   (Sample.stored SensorState Sample.state_U1 ∅)
                 = (∅, Raise ValidationError)) by (vm_compute; reflexivity).
  split; [exact Hrun|]. intros (db' & items & Hret).
  rewrite Hrun in Hret. discriminate Hret.
Qed.

Example sample_batch :
  sample_retrieve SensorState ["U9"; "U2"; "U1"; "U2"] Sample.db_states
    = (∅, Return [Sample.state_U2; Sample.state_U1]).
Proof. vm_compute. reflexivity. Qed.

Lemma retrieve_route_keeps_order_witness :
  sample_retrieve SensorState ["U9"; "U2"; "U1"; "U2"] Sample.db_states
    = (∅, Return [Sample.state_U2; Sample.state_U1]) ∧
  ∃ hits, (hits `sublist_of` ["U9"; "U2"; "U1"; "U2"]) ∧ NoDup hits ∧
    Forall2 (holds Sample.loads Sample.Resp Sample.resp_init SensorState Sample.db_states)
      hits [Sample.state_U2; Sample.state_U1].
Proof.
  assert (Hrun : sample_retrieve SensorState ["U9"; "U2"; "U1"; "U2"] Sample.db_states
                 = (∅, Return [Sample.state_U2; Sample.state_U1]))
    by (vm_compute; reflexivity).
  split; [exact Hrun|].
  exact (retrieve_route_keeps_order Sample.loads Sample.Resp Sample.resp_init
           SensorState _ _ _ _ Hrun).
Defined.


Lemma unexpected_status_is_passed_on_witness :
  let command := Sample.some_command "http://gw-busy" in
  let cmd_response := HttpResponse 503 Sample.busy_body in
  let detail := JDict {[ "detail" := JStr "gateway busy" ]} in
  acknowledgement Sample.gateway SetSensorState command = Some cmd_response ∧
  status_code cmd_response ≠ expected_status SetSensorState ∧
  Sample.loads (content cmd_response) = Some detail ∧
  detail ≠ JNull ∧
  sample_dispatch SetSensorState command = Raise (HTTPException 503 detail).
Proof.
  intros command cmd_response detail.
  assert (Hack : acknowledgement Sample.gateway SetSensorState command = Some cmd_response)
    by (vm_compute; reflexivity).
  assert (Hstatus : status_code cmd_response ≠ expected_status SetSensorState)
    by (vm_compute; discriminate).
  assert (Hbody : Sample.loads (content cmd_response) = Some detail)
    by (vm_compute; reflexivity).
  assert (Hdetail : detail ≠ JNull) by discriminate.
  split; [exact Hack|]. split; [exact Hstatus|]. split; [exact Hbody|].
  split; [exact Hdetail|].
  exact (unexpected_status_is_passed_on Sample.loads Sample.status_phrase Sample.ble_device
           Sample.BLEDevice_init Sample.gateway SetSensorState command cmd_response
           detail Hack Hstatus Hbody Hdetail).
Defined.

(** Against C6 as the specification has it: a gateway behind a proxy answers
    502 with a page that is no JSON; the route then fails on decoding that
    page, and what the caller gets carries neither the 502 nor the page. *)
Lemma status_with_a_body_that_is_no_json_is_lost :
  let command := Sample.some_command "http://gw-proxy" in
  acknowledgement Sample.gateway GetSensorState command
    = Some (HttpResponse 502 Sample.proxy_body) ∧
  502 ≠ expected_status GetSensorState ∧
  command_get_sensor_state Sample.loads Sample.status_phrase Sample.gateway command
    = Raise JSONDecodeError ∧
  ¬ ∃ detail, sample_dispatch GetSensorState command = Raise (HTTPException 502 detail).
Proof.
  vm_compute. split_and!; [reflexivity | discriminate | reflexivity |].
  intros [detail Hd]. discriminate Hd.
Qed.

Lemma missing_command_uuids_is_null_witness :
  let command := Sample.some_command "http://gw-plain" in
  let cmd_response := HttpResponse 202 Sample.plain_body in
  let fields : gmap string json := {[ "message" := JStr "accepted" ]} in
  GetInferenceLayer ∈ [GetSensorState; GetInferenceLayer; GetSensorConfig] ∧
  acknowledgement Sample.gateway GetInferenceLayer command = Some cmd_response ∧
  status_code cmd_response = HTTP_202_ACCEPTED ∧
  Sample.loads (content cmd_response) = Some (JDict fields) ∧
  fields !! "command_uuids" = None ∧
  ∃ answer, sample_dispatch GetInferenceLayer command = Return (Body Sample.ble_device answer) ∧
            answer !! "command_uuids" = Some JNull ∧ is_Some (answer !! "message").
Proof.
  intros command cmd_response fields.
  assert (Hin : GetInferenceLayer ∈ [GetSensorState; GetInferenceLayer; GetSensorConfig])
    by (right; left).
  assert (Hack : acknowledgement Sample.gateway GetInferenceLayer command = Some cmd_response)
    by (vm_compute; reflexivity).
  assert (Hstatus : status_code cmd_response = HTTP_202_ACCEPTED) by reflexivity.
  assert (Hbody : Sample.loads (content cmd_response) = Some (JDict fields))
    by (vm_compute; reflexivity).
  assert (Hmiss : fields !! "command_uuids" = None) by (vm_compute; reflexivity).
  split; [exact Hin|]. split; [exact Hack|]. split; [exact Hstatus|].
  split; [exact Hbody|]. split; [exact Hmiss|].
  exact (missing_command_uuids_is_null Sample.loads Sample.status_phrase Sample.ble_device
           Sample.BLEDevice_init Sample.gateway GetInferenceLayer command cmd_response
           fields Hin Hack Hstatus Hbody Hmiss).
Defined.

Example sample_get_sensor_state :
  sample_dispatch GetSensorState (Sample.some_command "http://gw-ok")
    = Return (Body Sample.ble_device
                (message_with_uuids "GET Sensor State Command Sent to Gateway API"
                   (JList [JStr "U1"]))) ∧
  sample_dispatch GetSensorState (Sample.some_command "http://nowhere")
    = Raise TransportError.
Proof. split; vm_compute; reflexivity. Qed.

(** Against C1 as the specification has it: when the commands of the two
    callers alternate, both read the record before either deletes it, and
    both return it. *)
Lemma both_consumers_get_the_record :
  let db := (sample_store "U1" dump_U1 ∅).1 in
  let final := run_schedule Sample.loads "U1" Sample.alternating
                 (Shared db BeforeGet BeforeGet) in
  first final = Finished (Return (JDict dump_U1)) ∧
  second final = Finished (Return (JDict dump_U1)).
Proof. vm_compute. split; reflexivity. Qed.

Lemma two_consumers_of_a_fresh_record_witness :
  let start := Shared (sample_store "U1" dump_U1 ∅).1 BeforeGet BeforeGet in
  let final := run_schedule Sample.loads "U1" Sample.one_after_the_other start in
  round_trips Sample.dumps Sample.loads dump_U1 ∧
  both_finished final ∧
  first final = Finished (Return (JDict dump_U1)) ∧
  second final = Finished (Return JNull) ∧
  store_of final !! "U1" = None.
Proof.
  intros start final.
  assert (Hdone : both_finished final).
  { split; [exists (Return (JDict dump_U1)) | exists (Return JNull)];
      vm_compute; reflexivity. }
  split; [exact dump_U1_round_trips|]. split; [exact Hdone|].
  destruct (two_consumers_of_a_fresh_record Sample.dumps Sample.loads "U1" dump_U1 ∅
              Sample.one_after_the_other dump_U1_round_trips Hdone)
    as (_ & _ & _ & Hgone & Hserial & _).
  destruct (Hserial [SecondCaller; SecondCaller] eq_refl) as [H1 H2].
  split; [exact H1|]. split; [exact H2 | exact Hgone].
Defined.

(** ** More runs on the sample instance *)

Local Abbreviation sample_ack := (acknowledgement Sample.gateway).
Local Abbreviation sample_put :=
  (store_route Sample.dumps Sample.Resp Sample.resp_command_uuid Sample.resp_model_dump).
Local Abbreviation dispatch_to g :=
  (command_route Sample.loads Sample.status_phrase Sample.ble_device Sample.BLEDevice_init g).

Lemma unreachable_gateway_is_a_transport_error_witness :
  sample_ack SetGatewayModel (Sample.some_command "http://nowhere") = None ∧
  sample_dispatch SetGatewayModel (Sample.some_command "http://nowhere")
    = Raise TransportError.
Proof.
  assert (Hack : sample_ack SetGatewayModel (Sample.some_command "http://nowhere") = None)
    by (vm_compute; reflexivity).
  split; [exact Hack|].
  exact (unreachable_gateway_is_a_transport_error Sample.loads Sample.status_phrase
           Sample.ble_device
           Sample.BLEDevice_init Sample.gateway SetGatewayModel _ Hack).
Defined.

Lemma normal_return_needs_expected_status_witness :
  let answer := Body Sample.ble_device
                  (message_with_uuids "GET Sensor State Command Sent to Gateway API"
                     (JList [JStr "U1"])) in
  sample_dispatch GetSensorState (Sample.some_command "http://gw-ok") = Return answer ∧
  ∃ cmd_response,
    sample_ack GetSensorState (Sample.some_command "http://gw-ok") = Some cmd_response ∧
    status_code cmd_response = expected_status GetSensorState.
Proof.
  intros answer.
  assert (Hrun : sample_dispatch GetSensorState (Sample.some_command "http://gw-ok")
                 = Return answer) by (vm_compute; reflexivity).
  split; [exact Hrun|].
  exact (normal_return_needs_expected_status Sample.loads Sample.status_phrase Sample.ble_device
           Sample.BLEDevice_init Sample.gateway GetSensorState _ answer Hrun).
Defined.

Lemma http_error_is_a_relayed_refusal_witness :
  let g := Sample.always (HttpResponse 503 "null") in
  let command := Sample.some_command "http://anywhere" in
  dispatch_to g SetSensorConfig command
    = Raise (HTTPException 503 (JStr "Service Unavailable")) ∧
  ∃ cmd_response body,
    acknowledgement g SetSensorConfig command = Some cmd_response ∧
    status_code cmd_response = 503 ∧ 503 ≠ expected_status SetSensorConfig ∧
    Sample.loads (content cmd_response) = Some body ∧
    (body ≠ JNull ∧ JStr "Service Unavailable" = body ∨
     body = JNull ∧ ∃ phrase, Sample.status_phrase 503 = Some phrase ∧
                              JStr "Service Unavailable" = JStr phrase).
Proof.
  intros g command.
  assert (Hrun : dispatch_to g SetSensorConfig command
                 = Raise (HTTPException 503 (JStr "Service Unavailable")))
    by (vm_compute; reflexivity).
  split; [exact Hrun|].
  exact (http_error_is_a_relayed_refusal Sample.loads Sample.status_phrase
           Sample.ble_device Sample.BLEDevice_init g SetSensorConfig command 503 _ Hrun).
Defined.

Lemma body_that_is_no_json_is_a_decode_error_witness :
  let command := Sample.some_command "http://gw-proxy" in
  let cmd_response := HttpResponse 502 Sample.proxy_body in
  sample_ack GetAvailableSensors command = Some cmd_response ∧
  Sample.loads (content cmd_response) = None ∧
  (status_code cmd_response ≠ expected_status GetAvailableSensors
   ∨ GetAvailableSensors ∉ message_routes) ∧
  sample_dispatch GetAvailableSensors command = Raise JSONDecodeError.
Proof.
  intros command cmd_response.
  assert (Hack : sample_ack GetAvailableSensors command = Some cmd_response)
    by (vm_compute; reflexivity).
  assert (Hbody : Sample.loads (content cmd_response) = None) by (vm_compute; reflexivity).
  assert (Hreads : status_code cmd_response ≠ expected_status GetAvailableSensors
                   ∨ GetAvailableSensors ∉ message_routes)
    by (left; vm_compute; discriminate).
  split; [exact Hack|]. split; [exact Hbody|]. split; [exact Hreads|].
  exact (body_that_is_no_json_is_a_decode_error Sample.loads Sample.status_phrase Sample.ble_device
           Sample.BLEDevice_init Sample.gateway GetAvailableSensors command cmd_response
           Hack Hbody Hreads).
Defined.

Lemma message_route_ignores_the_body_witness :
  let g := Sample.always (HttpResponse 202 Sample.proxy_body) in
  let command := Sample.some_command "http://anywhere" in
  SetSensorModel ∈ message_routes ∧
  acknowledgement g SetSensorModel command = Some (HttpResponse 202 Sample.proxy_body) ∧
  202 = expected_status SetSensorModel ∧
  Sample.loads Sample.proxy_body = None ∧
  ∃ text, sent_message SetSensorModel = Some text ∧
          dispatch_to g SetSensorModel command
          = Return (Body Sample.ble_device {[ "message" := JStr text ]}).
Proof.
  intros g command.
  assert (Hin : SetSensorModel ∈ message_routes) by (do 6 right; left).
  assert (Hack : acknowledgement g SetSensorModel command
                 = Some (HttpResponse 202 Sample.proxy_body)) by reflexivity.
  assert (Hstatus : 202 = expected_status SetSensorModel) by reflexivity.
  split; [exact Hin|]. split; [exact Hack|]. split; [exact Hstatus|].
  split; [vm_compute; reflexivity|].
  exact (message_route_ignores_the_body Sample.loads Sample.status_phrase Sample.ble_device
           Sample.BLEDevice_init g SetSensorModel command _ Hin Hack Hstatus).
Defined.

Lemma uuid_route_hands_on_command_uuids_witness :
  let command := Sample.some_command "http://gw-ok" in
  let cmd_response := HttpResponse 202 Sample.accepted_body in
  let fields : gmap string json := {[ "command_uuids" := JList [JStr "U1"] ]} in
  GetSensorConfig ∈ uuid_routes ∧
  sample_ack GetSensorConfig command = Some cmd_response ∧
  status_code cmd_response = expected_status GetSensorConfig ∧
  Sample.loads (content cmd_response) = Some (JDict fields) ∧
  ∃ answer, sample_dispatch GetSensorConfig command = Return (Body Sample.ble_device answer) ∧
            answer !! "command_uuids" = Some (JList [JStr "U1"]).
Proof.
  intros command cmd_response fields.
  assert (Hin : GetSensorConfig ∈ uuid_routes) by (do 2 right; left).
  assert (Hack : sample_ack GetSensorConfig command = Some cmd_response)
    by (vm_compute; reflexivity).
  assert (Hstatus : status_code cmd_response = expected_status GetSensorConfig)
    by reflexivity.
  assert (Hbody : Sample.loads (content cmd_response) = Some (JDict fields))
    by (vm_compute; reflexivity).
  split; [exact Hin|]. split; [exact Hack|]. split; [exact Hstatus|]. split; [exact Hbody|].
  refine (proj1 (uuid_route_hands_on_command_uuids Sample.loads Sample.status_phrase
                   Sample.ble_device
                   Sample.BLEDevice_init Sample.gateway GetSensorConfig command
                   cmd_response (JDict fields) Hin Hack Hstatus Hbody)
            fields (JList [JStr "U1"]) eq_refl _).
  vm_compute. reflexivity.
Defined.

Lemma device_route_returns_the_devices_witness :
  let g := Sample.always (HttpResponse 200 Sample.scan_body) in
  let command := Sample.some_command "http://anywhere" in
  let devices :=
    [JDict {[ "device_name" := JStr "s1"; "device_address" := JStr "aa:01" ]};
     JDict {[ "device_name" := JStr "s2"; "device_address" := JStr "aa:02" ]}] in
  let ds := [Sample.BleDevice "s1" "aa:01"; Sample.BleDevice "s2" "aa:02"] in
  GetAvailableSensors ∈ device_routes ∧
  acknowledgement g GetAvailableSensors command = Some (HttpResponse 200 Sample.scan_body) ∧
  200 = expected_status GetAvailableSensors ∧
  Sample.loads Sample.scan_body = Some (JList devices) ∧
  Forall2 (device_of Sample.ble_device Sample.BLEDevice_init) devices ds ∧
  dispatch_to g GetAvailableSensors command = Return (Devices Sample.ble_device ds).
Proof.
  intros g command devices ds.
  assert (Hin : GetAvailableSensors ∈ device_routes) by left.
  assert (Hack : acknowledgement g GetAvailableSensors command
                 = Some (HttpResponse 200 Sample.scan_body)) by reflexivity.
  assert (Hstatus : 200 = expected_status GetAvailableSensors) by reflexivity.
  assert (Hbody : Sample.loads Sample.scan_body = Some (JList devices))
    by (vm_compute; reflexivity).
  assert (Hall : Forall2 (device_of Sample.ble_device Sample.BLEDevice_init) devices ds).
  { repeat constructor; eexists; (split; [reflexivity|]); vm_compute; reflexivity. }
  split; [exact Hin|]. split; [exact Hack|]. split; [exact Hstatus|].
  split; [exact Hbody|]. split; [exact Hall|].
  exact (proj2 (device_route_returns_the_devices Sample.loads Sample.status_phrase Sample.ble_device
                  Sample.BLEDevice_init g GetAvailableSensors command _ devices ds
                  Hin Hack Hstatus Hbody) Hall).
Defined.

Lemma state_U1_reads_back :
  Sample.resp_init SensorState dump_U1 = Some Sample.state_U1.
Proof. vm_compute. reflexivity. Defined.

Lemma stored_response_is_retrieved_once_witness :
  round_trips Sample.dumps Sample.loads dump_U1 ∧
  Sample.resp_init SensorState dump_U1 = Some Sample.state_U1 ∧
  let db1 := (sample_put SensorState Sample.state_U1 ∅).1 in
  sample_retrieve SensorState ["U1"] db1 = (delete "U1" db1, Return [Sample.state_U1]) ∧
  sample_retrieve SensorState ["U1"] (delete "U1" db1) = (delete "U1" db1, Return []).
Proof.
  split; [exact dump_U1_round_trips|]. split; [exact state_U1_reads_back|].
  destruct (stored_response_is_retrieved_once Sample.dumps Sample.loads Sample.Resp
              Sample.resp_command_uuid Sample.resp_model_dump Sample.resp_init
              SensorState Sample.state_U1 ∅ dump_U1_round_trips state_U1_reads_back)
    as (_ & _ & H1 & H2).
  split; [exact H1 | exact H2].
Defined.

Lemma refused_record_is_consumed_witness :
  ("U1" ∉ ["U9"]) ∧
  sample_retrieve InferenceLayer ["U9"] Sample.db_states = (Sample.db_states, Return []) ∧
  redis_get "U1" Sample.db_states = Some (Sample.dumps (JDict dump_U1)) ∧
  Sample.dumps (JDict dump_U1) ≠ EmptyString ∧
  Sample.loads (Sample.dumps (JDict dump_U1)) = Some (JDict dump_U1) ∧
  Sample.resp_init InferenceLayer dump_U1 = None ∧
  sample_retrieve InferenceLayer (["U9"] ++ "U1" :: ["U2"]) Sample.db_states
    = (delete "U1" Sample.db_states, Raise ValidationError).
Proof.
  assert (Hnin : "U1" ∉ ["U9"]).
  { intros Hin. apply elem_of_cons in Hin as [Heq|Hin]; [discriminate Heq|].
    by apply elem_of_nil in Hin. }
  assert (Hbefore : sample_retrieve InferenceLayer ["U9"] Sample.db_states
                    = (Sample.db_states, Return [])) by (vm_compute; reflexivity).
  assert (Hget : redis_get "U1" Sample.db_states = Some (Sample.dumps (JDict dump_U1)))
    by (vm_compute; reflexivity).
  assert (Hne : Sample.dumps (JDict dump_U1) ≠ EmptyString) by (vm_compute; discriminate).
  assert (Hl : Sample.loads (Sample.dumps (JDict dump_U1)) = Some (JDict dump_U1))
    by (vm_compute; reflexivity).
  assert (Hno : Sample.resp_init InferenceLayer dump_U1 = None)
    by (vm_compute; reflexivity).
  split; [exact Hnin|]. split; [exact Hbefore|]. split; [exact Hget|].
  split; [exact Hne|]. split; [exact Hl|]. split; [exact Hno|].
  exact (proj2 (proj2 (refused_record_is_consumed Sample.loads Sample.Resp
                         Sample.resp_init InferenceLayer "U1" ["U9"] ["U2"]
                         Sample.db_states Sample.db_states [] _
                         Hnin Hbefore Hget Hne)) dump_U1 Hl Hno).
Defined.

Lemma empty_value_is_kept_witness :
  redis_get "U5" Sample.db_empty_value = Some EmptyString ∧
  sample_consume "U5" Sample.db_empty_value = (Sample.db_empty_value, Return JNull) ∧
  sample_retrieve SensorState ["U5"; "U1"] Sample.db_empty_value
    = sample_retrieve SensorState ["U1"] Sample.db_empty_value.
Proof.
  assert (Hget : redis_get "U5" Sample.db_empty_value = Some EmptyString)
    by (vm_compute; reflexivity).
  split; [exact Hget|].
  exact (empty_value_is_kept Sample.loads Sample.Resp Sample.resp_init SensorState
           "U5" ["U1"] Sample.db_empty_value Hget).
Defined.

Lemma null_record_is_dropped_witness :
  redis_get "U6" Sample.db_null_value = Some "null" ∧
  "null" ≠ EmptyString ∧
  Sample.loads "null" = Some JNull ∧
  sample_consume "U6" Sample.db_null_value = (delete "U6" Sample.db_null_value, Return JNull) ∧
  sample_retrieve SensorState ["U6"; "U1"] Sample.db_null_value
    = sample_retrieve SensorState ["U1"] (delete "U6" Sample.db_null_value).
Proof.
  assert (Hget : redis_get "U6" Sample.db_null_value = Some "null")
    by (vm_compute; reflexivity).
  assert (Hne : "null" ≠ EmptyString) by discriminate.
  assert (Hnull : Sample.loads "null" = Some JNull) by (vm_compute; reflexivity).
  split; [exact Hget|]. split; [exact Hne|]. split; [exact Hnull|].
  exact (null_record_is_dropped Sample.loads Sample.Resp Sample.resp_init SensorState
           "U6" "null" ["U1"] Sample.db_null_value Hget Hne Hnull).
Defined.

Lemma repeated_retrieval_is_empty_witness :
  sample_retrieve SensorState ["U9"; "U2"; "U1"; "U2"] Sample.db_states
    = (∅, Return [Sample.state_U2; Sample.state_U1]) ∧
  sample_retrieve SensorState ["U9"; "U2"; "U1"; "U2"] ∅ = (∅, Return []).
Proof.
  assert (Hrun : sample_retrieve SensorState ["U9"; "U2"; "U1"; "U2"] Sample.db_states
                 = (∅, Return [Sample.state_U2; Sample.state_U1]))
    by (vm_compute; reflexivity).
  split; [exact Hrun|].
  exact (repeated_retrieval_is_empty Sample.loads Sample.Resp Sample.resp_init
           SensorState _ _ _ _ Hrun).
Defined.

Lemma retrieval_of_an_appended_request_witness :
  sample_retrieve SensorState ["U1"] Sample.db_states
    = (delete "U1" Sample.db_states, Return [Sample.state_U1]) ∧
  sample_retrieve SensorState (["U1"] ++ ["U2"]) Sample.db_states
    = ((sample_retrieve SensorState ["U2"] (delete "U1" Sample.db_states)).1,
       outcome_map (app [Sample.state_U1])
         (sample_retrieve SensorState ["U2"] (delete "U1" Sample.db_states)).2).
Proof.
  assert (Hrun : sample_retrieve SensorState ["U1"] Sample.db_states
                 = (delete "U1" Sample.db_states, Return [Sample.state_U1]))
    by (vm_compute; reflexivity).
  split; [exact Hrun|].
  exact (retrieval_of_an_appended_request Sample.loads Sample.Resp Sample.resp_init
           SensorState ["U1"] ["U2"] _ _ _ Hrun).
Defined.

Lemma store_during_a_retrieval_is_lost_witness :
  round_trips Sample.dumps Sample.loads dump_U1 ∧
  let after_get := consumer_step Sample.loads "U1" BeforeGet (sample_store "U1" dump_U1 ∅).1 in
  let db3 := (sample_store "U1" dump_U2 after_get.1).1 in
  let after_delete := consumer_step Sample.loads "U1" after_get.2 db3 in
  redis_get "U1" db3 = Some (Sample.dumps (JDict dump_U2)) ∧
  after_delete.2 = Finished (Return (JDict dump_U1)) ∧
  after_delete.1 !! "U1" = None.
Proof.
  split; [exact dump_U1_round_trips|].
  destruct (store_during_a_retrieval_is_lost Sample.dumps Sample.loads "U1" dump_U1
              dump_U2 ∅ dump_U1_round_trips) as (H1 & H2 & H3 & _).
  split; [exact H1|]. split; [exact H2 | exact H3].
Defined.

Lemma kinds_share_one_keyspace_witness :
  Sample.resp_command_uuid SensorState Sample.state_U1
    = Sample.resp_command_uuid InferenceLayer Sample.layer_U1 ∧
  (sample_put InferenceLayer Sample.layer_U1 (sample_put SensorState Sample.state_U1 ∅).1).1
    = (sample_put InferenceLayer Sample.layer_U1 ∅).1.
Proof.
  assert (Huuid : Sample.resp_command_uuid SensorState Sample.state_U1
                  = Sample.resp_command_uuid InferenceLayer Sample.layer_U1)
    by reflexivity.
  split; [exact Huuid|].
  exact (proj1 (kinds_share_one_keyspace Sample.dumps Sample.Resp Sample.resp_command_uuid
                  Sample.resp_model_dump SensorState InferenceLayer Sample.state_U1
                  Sample.layer_U1 ∅ Huuid)).
Defined.

Lemma route_depends_on_its_own_acknowledgement_witness :
  let g := Sample.always (HttpResponse 202 Sample.accepted_body) in
  let command := Sample.some_command "http://gw-ok" in
  acknowledgement g GetInferenceLayer command = sample_ack GetInferenceLayer command ∧
  dispatch_to g GetInferenceLayer command = sample_dispatch GetInferenceLayer command.
Proof.
  intros g command.
  assert (Hack : acknowledgement g GetInferenceLayer command
                 = sample_ack GetInferenceLayer command) by (vm_compute; reflexivity).
  split; [exact Hack|].
  exact (route_depends_on_its_own_acknowledgement Sample.loads Sample.status_phrase
           Sample.ble_device
           Sample.BLEDevice_init Sample.gateway g GetInferenceLayer command Hack).
Defined.
